(** * Manakalo: the rates service (ratesService.js)

    A shallow embedding of the rate acquisition and caching policy of the
    Manakalo mobile currency converter, of its conversion function and of its
    history helpers, followed by the properties the specification states about
    them.

    The embedding follows the JavaScript source function by function:

    - a number is an IEEE-754 binary64 value, the primitive [float]; text is a
      [string], its characters read as code units below 256;
    - a value is a primitive or a plain data object; an expression completes
      with a value or throws, and a rejected promise is a throw ([async]
      functions run to their end, one after the other);
    - a time is an integer, the milliseconds since the epoch, and so is the
      ISO text that denotes it; the number of minutes of an age is the integer
      quotient, which [Math.floor(ageMs / 60000)] equals for every age a device
      clock can show;
    - a JSON text is kept as the document it denotes;
    - the SQLite database is its two tables, each a list of rows, and every SQL
      statement of the source is a function on them; the disk may fail any
      statement, and a failed statement changes nothing;
    - the clock, the rate provider, the disk and the console are the world the
      service runs in, threaded through a state-and-exception monad. *)

From Stdlib Require Import ZArith List String Ascii Bool Lia.
From Stdlib Require Import Floats.
Import ListNotations.

Set Warnings "-inexact-float,-register-all".

(* ===================================================================== *)
(** * The JavaScript values the service handles *)
(* ===================================================================== *)

Module JS.

(** Values: the primitives and plain data objects (what object literals and
    [JSON.parse] produce).  An object is the list of its own members in
    insertion order.  Arrays, functions, symbols and big integers do not occur
    in the data the service handles and are left out. *)
Inductive value : Type :=
  | VUndefined
  | VNull
  | VBool (b : bool)
  | VNum (x : float)
  | VStr (s : string)
  | VObj (members : list (string * value)).

(** What a [throw] (or a rejected promise) carries. *)
Inductive exn : Type :=
  | TypeError                 (* member read of undefined/null, failed ToPrimitive *)
  | SyntaxError               (* malformed JSON text *)
  | HttpError (status : Z)    (* new Error(`HTTP ${response.status}`) *)
  | FetchRejected             (* transport failure, or the 8 s abort signal *)
  | SQLiteError.              (* a statement the database could not run *)

(** The completion of an expression: a value, or an exception. *)
Inductive completion (A : Type) : Type :=
  | Normal (a : A)
  | Throw (e : exn).
Arguments Normal {A} a.
Arguments Throw {A} e.

Definition cbind {A B} (c : completion A) (k : A -> completion B) : completion B :=
  match c with
  | Normal a => k a
  | Throw e => Throw e
  end.

Declare Scope js_scope.
Delimit Scope js_scope with js.
Notation "x <- c ;; k" := (cbind c (fun x => k))
  (at level 61, c at next level, right associativity) : js_scope.

(** ** Own members of an object *)

Fixpoint own (members : list (string * value)) (k : string) : option value :=
  match members with
  | [] => None
  | (k', v) :: rest => if String.eqb k' k then Some v else own rest k
  end.

Definition has_own (members : list (string * value)) (k : string) : bool :=
  match own members k with Some _ => true | None => false end.

(** ** Characters and numerals *)

Definition code (c : ascii) : Z := Z.of_N (N_of_ascii c).

(** StrWhiteSpaceChar, for code units below 256: TAB, LF, VT, FF, CR, SP and
    NBSP. *)
Definition is_white (c : ascii) : bool :=
  let n := code c in
  ((9 <=? n) && (n <=? 13) || (n =? 32) || (n =? 160))%Z.

Definition digit_val (radix : Z) (c : ascii) : option Z :=
  let n := code c in
  let d :=
    if ((48 <=? n) && (n <=? 57))%Z then Some (n - 48)%Z
    else if ((97 <=? n) && (n <=? 102))%Z then Some (n - 87)%Z
    else if ((65 <=? n) && (n <=? 70))%Z then Some (n - 55)%Z
    else None in
  match d with
  | Some v => if (v <? radix)%Z then Some v else None
  | None => None
  end.

Fixpoint skip_white (s : list ascii) : list ascii :=
  match s with
  | c :: rest => if is_white c then skip_white rest else s
  | [] => []
  end.

Definition trim (s : list ascii) : list ascii :=
  rev (skip_white (rev (skip_white s))).

(** [scan_digits radix s acc n] reads the longest run of digits at the head of
    [s]: the number read (continuing [acc]), how many digits ([n] onwards), and
    the rest. *)
Fixpoint scan_digits (radix : Z) (s : list ascii) (acc n : Z) : Z * Z * list ascii :=
  match s with
  | c :: rest =>
      match digit_val radix c with
      | Some d => scan_digits radix rest (radix * acc + d)%Z (n + 1)%Z
      | None => (acc, n, s)
      end
  | [] => (acc, n, [])
  end.

Fixpoint strip_prefix (p s : list ascii) : option (list ascii) :=
  match p, s with
  | [], _ => Some s
  | a :: p', b :: s' => if Ascii.eqb a b then strip_prefix p' s' else None
  | _ :: _, [] => None
  end.

(** A decimal numeral read from text: infinite, or [dmant * 10 ^ dexp]. *)
Inductive numeral : Type :=
  | NInfinity
  | NDecimal (dmant dexp : Z).

(** The sign of a numeral, when one is written. *)
Definition scan_sign (s : list ascii) : bool * list ascii :=
  match s with
  | "+"%char :: rest => (false, rest)
  | "-"%char :: rest => (true, rest)
  | _ => (false, s)
  end.

(** ExponentPart, when a complete one is present. *)
Definition scan_exponent (s : list ascii) : Z * list ascii :=
  match s with
  | c :: rest =>
      if (Ascii.eqb c "e" || Ascii.eqb c "E")%bool then
        let '(neg, rest1) := scan_sign rest in
        let '(ev, n, rest2) := scan_digits 10 rest1 0 0 in
        if (0 <? n)%Z then ((if neg then - ev else ev)%Z, rest2) else (0%Z, s)
      else (0%Z, s)
  | [] => (0%Z, s)
  end.

(** The longest prefix of [s] that is a StrUnsignedDecimalLiteral. *)
Definition scan_unsigned_decimal (s : list ascii) : option (numeral * list ascii) :=
  match strip_prefix (list_ascii_of_string "Infinity") s with
  | Some rest => Some (NInfinity, rest)
  | None =>
      let '(ip, n1, r1) := scan_digits 10 s 0 0 in
      let after_point :=
        match r1 with
        | "."%char :: r =>
            let '(m, n2, r2) := scan_digits 10 r ip 0 in
            if ((n1 =? 0) && (n2 =? 0))%Z then None else Some (m, n2, r2)
        | _ => if (n1 =? 0)%Z then None else Some (ip, 0%Z, r1)
        end in
      match after_point with
      | Some (m, fraction_digits, r2) =>
          let '(ev, r3) := scan_exponent r2 in
          Some (NDecimal m (ev - fraction_digits), r3)
      | None => None
      end
  end.

(** ** From numerals to binary64 *)

(** The double nearest to [m * 10 ^ e] (ties to even), for [0 <= m]. *)
Definition float_of_decimal (m e : Z) : float :=
  match m with
  | Z0 => zero
  | Zneg _ => nan
  | Zpos _ =>
      if (0 <=? e)%Z then
        SF2Prim (binary_normalize prec emax (m * 10 ^ e) 0 false)
      else
        let '(q, e', l) := SFdiv_core_binary prec emax m 0 (10 ^ (- e)) 0 in
        SF2Prim (binary_round_aux prec emax false q e' l)
  end.

Definition float_of_numeral (neg : bool) (n : numeral) : float :=
  let x := match n with
           | NInfinity => infinity
           | NDecimal m e => float_of_decimal m e
           end in
  if neg then (- x)%float else x.

(** [0x], [0o] and [0b] numerals (StringToNumber only; no sign). *)
Definition scan_radix_literal (s : list ascii) : option float :=
  match s with
  | "0"%char :: c :: rest =>
      let radix :=
        if (Ascii.eqb c "x" || Ascii.eqb c "X")%bool then Some 16%Z
        else if (Ascii.eqb c "o" || Ascii.eqb c "O")%bool then Some 8%Z
        else if (Ascii.eqb c "b" || Ascii.eqb c "B")%bool then Some 2%Z
        else None in
      match radix with
      | Some r =>
          match scan_digits r rest 0 0 with
          | (m, n, []) => if (0 <? n)%Z then Some (float_of_decimal m 0) else None
          | _ => None
          end
      | None => None
      end
  | _ => None
  end.

(** StringToNumber: the whole text, white space trimmed, must be a numeral. *)
Definition string_to_number (s : string) : float :=
  match trim (list_ascii_of_string s) with
  | [] => zero
  | t =>
      let '(neg, body) := scan_sign t in
      match scan_unsigned_decimal body with
      | Some (n, []) => float_of_numeral neg n
      | _ => match scan_radix_literal t with
             | Some x => x
             | None => nan
             end
      end
  end.

(** The global [parseFloat] on text: leading white space skipped, then the
    longest prefix that is a decimal numeral; [NaN] when there is none. *)
Definition parse_float_text (s : string) : float :=
  let '(neg, body) := scan_sign (skip_white (list_ascii_of_string s)) in
  match scan_unsigned_decimal body with
  | Some (n, _) => float_of_numeral neg n
  | None => nan
  end.

(** ** Conversions *)

(** ToBoolean. *)
Definition to_boolean (v : value) : bool :=
  match v with
  | VUndefined | VNull => false
  | VBool b => b
  | VNum x => negb (is_zero x || is_nan x)
  | VStr s => negb (String.eqb s EmptyString)
  | VObj _ => true
  end.

(** ToNumber.  A plain object converts through [Object.prototype.toString] to
    the text "[object Object]", hence to [NaN]; an own member named [toString]
    (never callable in data) hides that method, and the conversion throws. *)
Definition to_number (v : value) : completion float :=
  match v with
  | VUndefined => Normal nan
  | VNull => Normal zero
  | VBool b => Normal (if b then one else zero)
  | VNum x => Normal x
  | VStr s => Normal (string_to_number s)
  | VObj o => if has_own o "toString" then Throw TypeError else Normal nan
  end.

(** The global [isNaN(v)]: whether [ToNumber(v)] is [NaN]. *)
Definition isNaN (v : value) : completion bool :=
  (x <- to_number v ;; Normal (is_nan x))%js.

(** The global [parseFloat(v)]: [ToString(v)], then [parse_float_text].  The
    text of a number reads back as that number ([Number::toString] prints the
    shortest digits that round-trip), except that both zeros print as "0". *)
Definition parseFloat (v : value) : completion float :=
  match v with
  | VUndefined | VNull | VBool _ => Normal nan
  | VNum x => Normal (if is_zero x then zero else x)
  | VStr s => Normal (parse_float_text s)
  | VObj o => if has_own o "toString" then Throw TypeError else Normal nan
  end.

(** [v === ''] *)
Definition is_empty_string (v : value) : bool :=
  match v with
  | VStr s => String.eqb s EmptyString
  | _ => false
  end.

(** [a / b] and [a * b]: both operands through ToNumber, left first. *)
Definition js_div (a b : value) : completion value :=
  (x <- to_number a ;; y <- to_number b ;; Normal (VNum (x / y)%float))%js.

Definition js_mul (a b : value) : completion value :=
  (x <- to_number a ;; y <- to_number b ;; Normal (VNum (x * y)%float))%js.

(** A canonical array index: decimal digits without a leading zero. *)
Definition canonical_index (k : string) : option nat :=
  match list_ascii_of_string k with
  | [] => None
  | "0"%char :: _ :: _ => None
  | l =>
      match scan_digits 10 l 0 0 with
      | (i, _, []) => Some (Z.to_nat i)
      | _ => None
      end
  end.

(** [v[k]] for a text key.  On undefined and null the read throws.  A member
    inherited from a prototype is a function or an accessor the service never
    calls; it reads as undefined here. *)
Definition get (v : value) (k : string) : completion value :=
  match v with
  | VUndefined | VNull => Throw TypeError
  | VBool _ | VNum _ => Normal VUndefined
  | VStr s =>
      if String.eqb k "length" then Normal (VNum (float_of_decimal (Z.of_nat (String.length s)) 0))
      else match canonical_index k with
           | Some i => match String.get i s with
                       | Some c => Normal (VStr (String c EmptyString))
                       | None => Normal VUndefined
                       end
           | None => Normal VUndefined
           end
  | VObj o => Normal (match own o k with Some x => x | None => VUndefined end)
  end.

End JS.


(* ===================================================================== *)
(** * The world the service runs in *)
(* ===================================================================== *)

Module World.
Import JS.

(** A point in time: milliseconds since the epoch.  The text
    [new Date().toISOString()] writes, and [new Date(text).getTime()] reads
    back to the millisecond, is kept as that number. *)
Definition time := Z.

(** A JSON document, kept as the value [JSON.parse] reads from its text. *)
Definition json := value.

(** Table [rates_cache]. *)
Record rates_cache_row : Type := {
  rc_id : Z;                (* INTEGER PRIMARY KEY *)
  rc_base : string;         (* TEXT NOT NULL *)
  rc_rates : json;          (* TEXT NOT NULL, a JSON string *)
  rc_fetched_at : time      (* TEXT NOT NULL *)
}.

(** Table [conversion_history]. *)
Record history_row : Type := {
  h_id : Z;                 (* INTEGER PRIMARY KEY AUTOINCREMENT *)
  h_from_currency : string;
  h_to_currency : string;
  h_amount : float;         (* REAL NOT NULL *)
  h_result : float;
  h_rate : float;
  h_converted_at : Z        (* CURRENT_TIMESTAMP: whole seconds *)
}.

Record database : Type := {
  rates_cache : list rates_cache_row;
  conversion_history : list history_row;
  history_seq : Z           (* the largest id ever given out *)
}.

(** What the rate provider sends back. *)
Inductive body : Type :=
  | Malformed                (* not JSON *)
  | Document (data : value).

Inductive reply : Type :=
  | NoReply                  (* the request fails or times out *)
  | Response (status : Z) (b : body).

Inductive log_entry : Type :=
  | Warn (label : string) (e : exn).

(** The database, and around it what the service cannot control: the clock
    (its successive readings), the provider (its successive replies), the disk
    (which statements fail), with the count of how much of each was used; the
    requests sent and the console complete the record. *)
Record world : Type := {
  db : database;
  clock : nat -> time;
  readings : nat;
  provider : nat -> reply;
  requests : list string;
  disk_fails : nat -> bool;
  statements : nat;
  console : list log_entry
}.

Definition with_db (d : database) (w : world) : world :=
  {| db := d; clock := clock w; readings := readings w; provider := provider w;
     requests := requests w; disk_fails := disk_fails w;
     statements := statements w; console := console w |}.

Definition with_readings (n : nat) (w : world) : world :=
  {| db := db w; clock := clock w; readings := n; provider := provider w;
     requests := requests w; disk_fails := disk_fails w;
     statements := statements w; console := console w |}.

Definition with_requests (l : list string) (w : world) : world :=
  {| db := db w; clock := clock w; readings := readings w; provider := provider w;
     requests := l; disk_fails := disk_fails w;
     statements := statements w; console := console w |}.

Definition with_statements (n : nat) (w : world) : world :=
  {| db := db w; clock := clock w; readings := readings w; provider := provider w;
     requests := requests w; disk_fails := disk_fails w;
     statements := n; console := console w |}.

Definition with_console (l : list log_entry) (w : world) : world :=
  {| db := db w; clock := clock w; readings := readings w; provider := provider w;
     requests := requests w; disk_fails := disk_fails w;
     statements := statements w; console := l |}.

(** ** Computations: state and exceptions *)

Definition M (A : Type) : Type := world -> completion A * world.

Definition ret {A} (a : A) : M A := fun w => (Normal a, w).

Definition throw {A} (e : exn) : M A := fun w => (Throw e, w).

Definition bind {A B} (c : M A) (k : A -> M B) : M B :=
  fun w =>
    match c w with
    | (Normal a, w') => k a w'
    | (Throw e, w') => (Throw e, w')
    end.

(** [try { body } catch (e) { handler }] *)
Definition try_catch {A} (body : M A) (handler : exn -> M A) : M A :=
  fun w =>
    match body w with
    | (Normal a, w') => (Normal a, w')
    | (Throw e, w') => handler e w'
    end.

Definition lift {A} (c : completion A) : M A := fun w => (c, w).

Declare Scope m_scope.
Delimit Scope m_scope with M.
Notation "x <- c ;; k" := (bind c (fun x => k))
  (at level 61, c at next level, right associativity) : m_scope.
Notation "c ;; k" := (bind c (fun _ => k))
  (at level 61, right associativity) : m_scope.

(** ** The clock, the console, the network *)

(** [Date.now()], [new Date()]: the next reading. *)
Definition Date_now : M time :=
  fun w => (Normal (clock w (readings w)), with_readings (S (readings w)) w).

(** [console.warn(label, ...)] *)
Definition console_warn (label : string) (e : exn) : M unit :=
  fun w => (Normal tt, with_console (console w ++ [Warn label e]) w).

(** [await fetch(url, { signal: AbortSignal.timeout(8000) })]: one request is
    sent; the promise rejects when no response arrives. *)
Definition fetch (url : string) : M (Z * body) :=
  fun w =>
    let w' := with_requests (requests w ++ [url]) w in
    match provider w (List.length (requests w)) with
    | NoReply => (Throw FetchRejected, w')
    | Response status b => (Normal (status, b), w')
    end.

(** [response.ok] *)
Definition response_ok (status : Z) : bool := ((200 <=? status) && (status <=? 299))%Z.

(** [await response.json()] *)
Definition response_json (b : body) : M value :=
  match b with
  | Malformed => throw SyntaxError
  | Document data => ret data
  end.

(** ** JSON *)

(** [JSON.stringify] followed by [JSON.parse]: of an object, the members that
    are not undefined; a number that is not finite is written [null], and both
    zeros are written 0.  [None] stands for the undefined that
    [JSON.stringify(undefined)] returns instead of a text. *)
Fixpoint json_image (v : value) : value :=
  match v with
  | VNum x =>
      if (is_nan x || is_infinity x)%bool then VNull
      else if is_zero x then VNum zero else VNum x
  | VObj o =>
      VObj ((fix members (l : list (string * value)) : list (string * value) :=
               match l with
               | [] => []
               | (k, VUndefined) :: rest => members rest
               | (k, x) :: rest => (k, json_image x) :: members rest
               end) o)
  | _ => v
  end.

Definition JSON_stringify (v : value) : option json :=
  match v with
  | VUndefined => None
  | _ => Some (json_image v)
  end.

Definition JSON_parse (text : json) : M value := ret text.

(** ** SQL statements *)

(** A statement runs against the database unless the disk fails it; a failed
    statement changes nothing. *)
Definition statement {A} (q : database -> completion (A * database)) : M A :=
  fun w =>
    let w1 := with_statements (S (statements w)) w in
    if disk_fails w (statements w) then (Throw SQLiteError, w1)
    else match q (db w) with
         | Normal (a, d) => (Normal a, with_db d w1)
         | Throw e => (Throw e, w1)
         end.

(** [SELECT * FROM rates_cache WHERE id = 1] (first row) *)
Definition select_rates_cache (id : Z) : M (option rates_cache_row) :=
  statement (fun d =>
    Normal (find (fun r => (rc_id r =? id)%Z) (rates_cache d), d)).

(** [UPDATE rates_cache SET base = ?, rates = ?, fetched_at = ? WHERE id = 1] *)
Definition update_rates_cache (id : Z) (base : string) (rates : option json)
    (fetched_at : time) : M unit :=
  statement (fun d =>
    match rates with
    | None =>
        if existsb (fun r => (rc_id r =? id)%Z) (rates_cache d)
        then Throw SQLiteError          (* NOT NULL constraint *)
        else Normal (tt, d)
    | Some text =>
        Normal (tt,
          {| rates_cache :=
               map (fun r => if (rc_id r =? id)%Z
                             then {| rc_id := rc_id r; rc_base := base;
                                     rc_rates := text; rc_fetched_at := fetched_at |}
                             else r) (rates_cache d);
             conversion_history := conversion_history d;
             history_seq := history_seq d |})
    end).

(** [INSERT INTO rates_cache (id, base, rates, fetched_at) VALUES (1, ?, ?, ?)] *)
Definition insert_rates_cache (id : Z) (base : string) (rates : option json)
    (fetched_at : time) : M unit :=
  statement (fun d =>
    match rates with
    | None => Throw SQLiteError         (* NOT NULL constraint *)
    | Some text =>
        if existsb (fun r => (rc_id r =? id)%Z) (rates_cache d)
        then Throw SQLiteError          (* PRIMARY KEY constraint *)
        else Normal (tt,
          {| rates_cache :=
               rates_cache d ++ [{| rc_id := id; rc_base := base;
                                    rc_rates := text; rc_fetched_at := fetched_at |}];
             conversion_history := conversion_history d;
             history_seq := history_seq d |})
    end).

(** What a REAL column gives back for a number stored in it: the same
    double, except that the negative zero comes back as the positive zero. *)
Definition REAL_column (x : float) : float :=
  if is_zero x then zero else x.

(** [INSERT INTO conversion_history (from_currency, to_currency, amount,
    result, rate) VALUES (?, ?, ?, ?, ?)] at time [t].  SQLite stores a NaN as
    NULL, which the REAL NOT NULL columns refuse. *)
Definition insert_history (t : time) (from to : string) (amount result rate : float)
    : database -> completion (unit * database) :=
  fun d =>
    if (is_nan amount || is_nan result || is_nan rate)%bool then Throw SQLiteError
    else
      let id := (history_seq d + 1)%Z in
      Normal (tt,
        {| rates_cache := rates_cache d;
           conversion_history :=
             conversion_history d ++
               [{| h_id := id; h_from_currency := from; h_to_currency := to;
                   h_amount := REAL_column amount;
                   h_result := REAL_column result;
                   h_rate := REAL_column rate;
                   h_converted_at := (t / 1000)%Z |}];
           history_seq := id |}).

(** Rows by [converted_at] descending; rows of the same second keep their
    order of insertion. *)
Fixpoint insert_desc (r : history_row) (l : list history_row) : list history_row :=
  match l with
  | [] => [r]
  | x :: rest =>
      if (h_converted_at x <? h_converted_at r)%Z then r :: l
      else x :: insert_desc r rest
  end.

Definition order_desc (l : list history_row) : list history_row :=
  fold_left (fun acc r => insert_desc r acc) l [].

(** A number SQLite takes for a LIMIT: an integer strictly between the
    bounds of its 64-bit integers. *)
Definition is_limit (n : Z) : bool :=
  ((- 2 ^ 63 <? n) && (n <? 2 ^ 63))%Z.

(** [SELECT * FROM conversion_history ORDER BY converted_at DESC LIMIT ?],
    for a limit that is an integer.  A limit SQLite cannot take as a 64-bit
    integer is refused (datatype mismatch); a negative limit is no limit. *)
Definition select_history (limit : Z) : database -> completion (list history_row * database) :=
  fun d =>
    if is_limit limit then
      let rows := order_desc (conversion_history d) in
      Normal ((if (limit <? 0)%Z then rows else firstn (Z.to_nat limit) rows), d)
    else Throw SQLiteError.

(** [DELETE FROM conversion_history] *)
Definition delete_history : database -> completion (unit * database) :=
  fun d =>
    Normal (tt, {| rates_cache := rates_cache d; conversion_history := [];
                   history_seq := history_seq d |}).

End World.

(* ===================================================================== *)
(** * ratesService.js *)
(* ===================================================================== *)

Module RatesService.
Import JS World.
Local Open Scope string_scope.
Local Open Scope m_scope.

(** ** Constants *)

Definition CACHE_DURATION_MS : Z := 60 * 60 * 1000.   (* 1 hour *)

Definition CURRENCIES : list string := ["MGA"; "USD"; "EUR"; "CNY"].

(** Fallback rates relative to USD (used when offline with no cache). *)
Definition FALLBACK_RATES_FROM_USD : value :=
  VObj [("USD", VNum 1); ("EUR", VNum 0.92); ("CNY", VNum 7.24); ("MGA", VNum 4500)].

Definition RATES_URL : string := "https://open.er-api.com/v6/latest/USD".

(** ** Cache helpers *)

Definition saveRatesToCache (rates : value) : M unit :=
  now <- Date_now ;;
  existing <- select_rates_cache 1 ;;
  match existing with
  | Some _ => update_rates_cache 1 "USD" (JSON_stringify rates) now
  | None => insert_rates_cache 1 "USD" (JSON_stringify rates) now
  end.

(** What [loadRatesFromCache] returns when a row is there. *)
Record cached : Type := {
  c_rates : value;
  isFresh : bool;
  c_fetchedAt : time;
  c_ageMinutes : Z
}.

(** [Math.floor(ageMs / 60000)] is the integer quotient rounded down. *)
Definition loadRatesFromCache : M (option cached) :=
  row <- select_rates_cache 1 ;;
  match row with
  | None => ret None
  | Some row =>
      t <- Date_now ;;
      let ageMs := (t - rc_fetched_at row)%Z in
      let fresh := (ageMs <? CACHE_DURATION_MS)%Z in
      rates <- JSON_parse (rc_rates row) ;;
      ret (Some {| c_rates := rates;
                   isFresh := fresh;
                   c_fetchedAt := rc_fetched_at row;
                   c_ageMinutes := (ageMs / 60000)%Z |})
  end.

(** ** API fetch *)

Definition fetchLiveRates : M value :=
  response <- fetch RATES_URL ;;
  let '(status, b) := response in
  if negb (response_ok status) then throw (HttpError status)
  else
    data <- response_json b ;;
    (* only the currencies we need *)
    usd <- lift (r <- get data "rates" ;; get r "USD")%js ;;
    eur <- lift (r <- get data "rates" ;; get r "EUR")%js ;;
    cny <- lift (r <- get data "rates" ;; get r "CNY")%js ;;
    mga <- lift (r <- get data "rates" ;; get r "MGA")%js ;;
    ret (VObj [("USD", usd); ("EUR", eur); ("CNY", cny); ("MGA", mga)]).

(** ** Main function *)

Inductive provenance : Type := live | cache | fallback.

(** What [getRates] resolves to; [None] is JavaScript's [null]. *)
Record resolved : Type := {
  rates : value;
  source : provenance;
  fetchedAt : option time;
  ageMinutes : option Z
}.

Definition getRates : M resolved :=
  (* 1. Check cache first *)
  cached <- loadRatesFromCache ;;
  let remote : M resolved :=
    (* 2. Try to fetch live *)
    try_catch
      (rates <- fetchLiveRates ;;
       saveRatesToCache rates ;;
       now <- Date_now ;;
       ret {| rates := rates; source := live;
              fetchedAt := Some now; ageMinutes := Some 0%Z |})
      (fun err =>
         console_warn "Rate fetch failed:" err ;;
         match cached with
         | Some c =>
             (* 3. Use stale cache if available *)
             ret {| rates := c_rates c; source := cache;
                    fetchedAt := Some (c_fetchedAt c);
                    ageMinutes := Some (c_ageMinutes c) |}
         | None =>
             (* 4. Last resort: built-in fallback *)
             ret {| rates := FALLBACK_RATES_FROM_USD; source := fallback;
                    fetchedAt := None; ageMinutes := None |}
         end) in
  match cached with
  | Some c =>
      (* cached?.isFresh *)
      if isFresh c then
        ret {| rates := c_rates c; source := cache;
               fetchedAt := Some (c_fetchedAt c); ageMinutes := Some (c_ageMinutes c) |}
      else remote
  | None => remote
  end.

(** ** Conversion logic *)

(** Convert an amount from one currency to another.  All rates are relative
    to USD, so we go: FROM -> USD -> TO. *)
Definition convert (amount : value) (fromCurrency toCurrency : string) (rates : value)
    : completion value :=
  if negb (to_boolean rates) then Normal (VNum zero)
  else
    (nan_amount <- isNaN amount ;;
     if (nan_amount || is_empty_string amount)%bool then Normal (VNum zero)
     else
       parsed <- parseFloat amount ;;
       from_rate <- get rates fromCurrency ;;
       amountUSD <- js_div (VNum parsed) from_rate ;;
       to_rate <- get rates toCurrency ;;
       js_mul amountUSD to_rate)%js.

(** ** History helpers *)

Definition saveToHistory (from to : string) (amount result rate : float) : M unit :=
  try_catch
    (t <- Date_now ;;
     statement (insert_history t from to amount result rate))
    (fun e => console_warn "History save failed:" e).

Definition getHistory (limit : Z) : M (list history_row) :=
  try_catch
    (statement (select_history limit))
    (fun _ => ret []).

Definition getHistory_default : M (list history_row) := getHistory 30.

Definition clearHistory : M unit :=
  statement delete_history.

End RatesService.


(* ===================================================================== *)
(** * Scenarios *)
(* ===================================================================== *)

Module Scenario.
Import JS World RatesService.
Local Open Scope string_scope.

(** A reply of the provider, with more currencies than the service keeps. *)
Definition provider_document : value :=
  VObj [("result", VStr "success");
        ("base_code", VStr "USD");
        ("rates", VObj [("USD", VNum 1); ("AED", VNum 3.6725); ("CNY", VNum 7.2);
                        ("EUR", VNum 0.9); ("MGA", VNum 4400)])].

(** What the service keeps of it. *)
Definition provider_rates : value :=
  VObj [("USD", VNum 1); ("EUR", VNum 0.9); ("CNY", VNum 7.2); ("MGA", VNum 4400)].

(** A reply in which the provider left MGA out. *)
Definition document_without_MGA : value :=
  VObj [("result", VStr "success");
        ("rates", VObj [("USD", VNum 1); ("EUR", VNum 0.9); ("CNY", VNum 7.2)])].

Definition minutes (n : Z) : Z := (n * 60000)%Z.

(** The time of the call. *)
Definition call_time : time := 1762041600000%Z.

(** A snapshot saved [age] minutes before the call. *)
Definition old_snapshot (age : Z) : rates_cache_row :=
  {| rc_id := 1%Z; rc_base := "USD";
     rc_rates := VObj [("USD", VNum 1); ("EUR", VNum 0.95); ("CNY", VNum 7.1);
                       ("MGA", VNum 4600)];
     rc_fetched_at := (call_time - minutes age)%Z |}.

(** A world: the rows of [rates_cache], the provider's reply to every request,
    the statements that fail; the clock advances one millisecond a reading. *)
Definition scene (table : list rates_cache_row) (r : reply) (fails : nat -> bool) : world :=
  {| db := {| rates_cache := table; conversion_history := []; history_seq := 0%Z |};
     clock := fun n => (call_time + Z.of_nat n)%Z;
     readings := 0;
     provider := fun _ => r;
     requests := [];
     disk_fails := fails;
     statements := 0;
     console := [] |}.

Definition healthy : nat -> bool := fun _ => false.
Definition broken : nat -> bool := fun _ => true.

(** The disk fails the third statement of the call: the write of the row. *)
Definition fails_on_write : nat -> bool := fun n => Nat.eqb n 2.

Definition online : reply := Response 200%Z (Document provider_document).
Definition offline : reply := NoReply.

End Scenario.

(* ===================================================================== *)
(** * Vocabulary of the statements *)
(* ===================================================================== *)

Module Vocabulary.
Import JS World RatesService.
Local Open Scope string_scope.

(** The snapshot the store holds: row 1 of [rates_cache], if any. *)
Definition snapshot (d : database) : option rates_cache_row :=
  find (fun r => (rc_id r =? 1)%Z) (rates_cache d).

(** The row [saveRatesToCache] writes for [rates] at time [t]. *)
Definition snapshot_row (rates : value) (t : time) : rates_cache_row :=
  {| rc_id := 1%Z; rc_base := "USD"; rc_rates := json_image rates; rc_fetched_at := t |}.

(** A table with its row 1 replaced. *)
Definition overwritten (row : rates_cache_row) (table : list rates_cache_row)
    : list rates_cache_row :=
  map (fun r => if (rc_id r =? 1)%Z then row else r) table.

(** What [fetchLiveRates] makes of the provider's reply. *)
Definition live_rates (r : reply) : completion value :=
  match r with
  | NoReply => Throw FetchRejected
  | Response status b =>
      if response_ok status then
        match b with
        | Malformed => Throw SyntaxError
        | Document data =>
            (r <- get data "rates" ;;
             usd <- get r "USD" ;; eur <- get r "EUR" ;;
             cny <- get r "CNY" ;; mga <- get r "MGA" ;;
             Normal (VObj [("USD", usd); ("EUR", eur); ("CNY", cny); ("MGA", mga)]))%js
        end
      else Throw (HttpError status)
  end.

(** A value that is not an object. *)
Definition primitive (v : value) : bool :=
  match v with
  | VObj _ => false
  | _ => true
  end.

(** [v.k], undefined when the read throws. *)
Definition member (v : value) (k : string) : value :=
  match get v k with
  | Normal x => x
  | Throw _ => VUndefined
  end.

(** The snapshot [row] as [loadRatesFromCache] reports it at time [t]. *)
Definition loaded (row : rates_cache_row) (t : time) : cached :=
  {| c_rates := rc_rates row;
     isFresh := (t - rc_fetched_at row <? CACHE_DURATION_MS)%Z;
     c_fetchedAt := rc_fetched_at row;
     c_ageMinutes := ((t - rc_fetched_at row) / 60000)%Z |}.

(** The double 1, as its specification has it. *)
Definition one_sf : spec_float := S754_finite false 4503599627370496 (-52).

End Vocabulary.

(* ===================================================================== *)
(** * Invariants and frames *)
(* ===================================================================== *)

Module Invariant.
Import JS World RatesService Vocabulary.
Local Open Scope string_scope.

(** The clock, the provider and the disk are not the service's to change. *)
Definition same_surroundings (w w' : world) : Prop :=
  clock w' = clock w /\ provider w' = provider w /\ disk_fails w' = disk_fails w.

(** A snapshot too old to be served without asking the provider, or none. *)
Definition stale_or_absent (w : world) : Prop :=
  match snapshot (db w) with
  | Some row => (CACHE_DURATION_MS <= clock w (readings w) - rc_fetched_at row)%Z
  | None => True
  end.

(** What [getRates] answers from the store when it cannot answer [live]. *)
Definition degraded (w : world) : resolved :=
  match snapshot (db w) with
  | Some row =>
      {| rates := rc_rates row; source := cache;
         fetchedAt := Some (rc_fetched_at row);
         ageMinutes := Some ((clock w (readings w) - rc_fetched_at row) / 60000)%Z |}
  | None =>
      {| rates := FALLBACK_RATES_FROM_USD; source := fallback;
         fetchedAt := None; ageMinutes := None |}
  end.

(** The reading of the clock a save of this call is stamped with: the load
    reads the clock first when it finds a row. *)
Definition save_time (w : world) : time :=
  clock w (match snapshot (db w) with
           | Some _ => S (readings w)
           | None => readings w
           end).

(** The database once [rates] is saved at time [t]. *)
Definition saved (rates : value) (t : time) (d : database) : database :=
  {| rates_cache :=
       match snapshot d with
       | Some _ => overwritten (snapshot_row rates t) (rates_cache d)
       | None => (rates_cache d ++ [snapshot_row rates t])%list
       end;
     conversion_history := conversion_history d;
     history_seq := history_seq d |}.

(** The rate cache holds no row, or the one row of id 1. *)
Definition single_snapshot (d : database) : Prop :=
  rates_cache d = [] \/ exists row, rates_cache d = [row] /\ rc_id row = 1%Z.

(** Every id given out is at most [history_seq], and the rows of the history
    are in the order of their ids. *)
Fixpoint ids_below (bound : Z) (rows : list history_row) : Prop :=
  match rows with
  | [] => True
  | r :: rest => (h_id r <= bound)%Z /\ ids_below bound rest
  end.

Fixpoint ids_increasing (rows : list history_row) : Prop :=
  match rows with
  | [] => True
  | r :: rest =>
      match rest with
      | [] => True
      | r' :: _ => (h_id r < h_id r')%Z
      end /\ ids_increasing rest
  end.

Definition history_ids_sound (d : database) : Prop :=
  ids_below (history_seq d) (conversion_history d) /\
  ids_increasing (conversion_history d).

(** Rows from the most recent to the oldest. *)
Fixpoint newest_first (rows : list history_row) : Prop :=
  match rows with
  | [] => True
  | r :: rest =>
      match rest with
      | [] => True
      | r' :: _ => (h_converted_at r' <= h_converted_at r)%Z
      end /\ newest_first rest
  end.

End Invariant.

(* ===================================================================== *)
(** * The converter screen (ConverterScreen.js) *)
(* ===================================================================== *)

Module Screen.
Import JS World RatesService.
Local Open Scope string_scope.
Local Open Scope m_scope.

(** ** The amount field *)

(** [\d] and [\w] of the regular expressions, and the point. *)
Definition is_digit (c : ascii) : bool :=
  ((48 <=? code c) && (code c <=? 57))%Z.

Definition is_word (c : ascii) : bool :=
  (is_digit c
   || ((65 <=? code c) && (code c <=? 90))%Z
   || ((97 <=? code c) && (code c <=? 122))%Z
   || (code c =? 95)%Z)%bool.

Definition is_point (c : ascii) : bool := Ascii.eqb c ".".

(** [text.replace(/[^0-9.]/g, '')]: everything but digits and points goes. *)
Definition strip_non_numeric (text : list ascii) : list ascii :=
  filter (fun c => (is_digit c || is_point c)%bool) text.

(** [s.split(".")]: the pieces between the points, always one at least. *)
Fixpoint split_points (s : list ascii) : list (list ascii) :=
  match s with
  | [] => [[]]
  | c :: rest =>
      if is_point c then [] :: split_points rest
      else match split_points rest with
           | piece :: pieces => (c :: piece) :: pieces
           | [] => [[c]]
           end
  end.

(** The length of the run of digits at the head of [s]. *)
Fixpoint digit_run (s : list ascii) : nat :=
  match s with
  | c :: rest => if is_digit c then S (digit_run rest) else 0
  | [] => 0
  end.

(** [s.replace(/\B(?=(\d{3})+(?!\d))/g, ",")]: a comma goes in at every place
    that is not a word boundary and from which a run of digits starts whose
    length is a multiple of three (three at least).  [prev] is the character
    before the place, if any. *)
Fixpoint insert_commas (prev : option ascii) (s : list ascii) : list ascii :=
  match s with
  | [] => []
  | c :: rest =>
      let not_boundary :=
        match prev with
        | Some p => Bool.eqb (is_word p) (is_word c)
        | None => negb (is_word c)
        end in
      let groups_ahead :=
        ((0 <? digit_run s) && (digit_run s mod 3 =? 0))%nat in
      (if (not_boundary && groups_ahead)%bool then [","%char] else [])
        ++ c :: insert_commas (Some c) rest
  end.

(** What [handleAmountChange] sets: the plain value for math ([setAmount])
    and the pretty value for display ([setDisplayAmount]). *)
Definition handleAmountChange (text : string) : string * string :=
  (* 1. Strip everything except digits and one decimal point *)
  let cleaned := strip_non_numeric (list_ascii_of_string text) in
  (* 2. Prevent more than one decimal point *)
  let parts := split_points cleaned in
  let raw :=
    if (2 <? List.length parts)%nat
    then (hd [] parts ++ ["."%char] ++ List.concat (skipn 1 parts))%list
    else cleaned in
  (* 3. Format the integer part with commas, preserve decimal part as-is *)
  let pieces := split_points raw in
  let intPart := hd [] pieces in
  let decPart := nth_error pieces 1 in
  let formattedInt := insert_commas None intPart in
  let formatted :=
    match decPart with
    | Some d => (formattedInt ++ ["."%char] ++ d)%list
    | None => formattedInt
    end in
  (string_of_list_ascii raw, string_of_list_ascii formatted).

(** ** The state of the converter screen *)

Record screen : Type := {
  s_rates : value;                                  (* null until loaded *)
  s_ratesMeta : option provenance * option Z;       (* source, ageMinutes *)
  s_loading : bool;
  s_refreshing : bool;
  s_amount : string;
  s_displayAmount : string;
  s_fromCurrency : string;
  s_toCurrency : string;
  s_rounded : bool;
  s_snackbar : string
}.

Definition initial_screen : screen :=
  {| s_rates := VNull; s_ratesMeta := (None, None);
     s_loading := true; s_refreshing := false;
     s_amount := EmptyString; s_displayAmount := EmptyString;
     s_fromCurrency := "CNY"; s_toCurrency := "MGA";
     s_rounded := false; s_snackbar := EmptyString |}.

Definition setRates (r : value) (s : screen) : screen :=
  {| s_rates := r; s_ratesMeta := s_ratesMeta s; s_loading := s_loading s;
     s_refreshing := s_refreshing s; s_amount := s_amount s;
     s_displayAmount := s_displayAmount s; s_fromCurrency := s_fromCurrency s;
     s_toCurrency := s_toCurrency s; s_rounded := s_rounded s;
     s_snackbar := s_snackbar s |}.

Definition setRatesMeta (m : option provenance * option Z) (s : screen) : screen :=
  {| s_rates := s_rates s; s_ratesMeta := m; s_loading := s_loading s;
     s_refreshing := s_refreshing s; s_amount := s_amount s;
     s_displayAmount := s_displayAmount s; s_fromCurrency := s_fromCurrency s;
     s_toCurrency := s_toCurrency s; s_rounded := s_rounded s;
     s_snackbar := s_snackbar s |}.

Definition setLoading (b : bool) (s : screen) : screen :=
  {| s_rates := s_rates s; s_ratesMeta := s_ratesMeta s; s_loading := b;
     s_refreshing := s_refreshing s; s_amount := s_amount s;
     s_displayAmount := s_displayAmount s; s_fromCurrency := s_fromCurrency s;
     s_toCurrency := s_toCurrency s; s_rounded := s_rounded s;
     s_snackbar := s_snackbar s |}.

Definition setRefreshing (b : bool) (s : screen) : screen :=
  {| s_rates := s_rates s; s_ratesMeta := s_ratesMeta s; s_loading := s_loading s;
     s_refreshing := b; s_amount := s_amount s;
     s_displayAmount := s_displayAmount s; s_fromCurrency := s_fromCurrency s;
     s_toCurrency := s_toCurrency s; s_rounded := s_rounded s;
     s_snackbar := s_snackbar s |}.

Definition setSnackbar (msg : string) (s : screen) : screen :=
  {| s_rates := s_rates s; s_ratesMeta := s_ratesMeta s; s_loading := s_loading s;
     s_refreshing := s_refreshing s; s_amount := s_amount s;
     s_displayAmount := s_displayAmount s; s_fromCurrency := s_fromCurrency s;
     s_toCurrency := s_toCurrency s; s_rounded := s_rounded s;
     s_snackbar := msg |}.

(** ** Load rates *)

Definition MSG_UPDATED : string := "✅ Rates updated!".
Definition MSG_CACHED : string := "⚠️ Using cached rates — no internet".
Definition MSG_FAILED : string := "Could not load rates".

(** [loadRates(isRefresh)]: the [try] around [getRates], its [catch] and its
    [finally]. *)
Definition loadRates (isRefresh : bool) (s : screen) : M screen :=
  let s0 := if isRefresh then setRefreshing true s else setLoading true s in
  s1 <- try_catch
          (r <- getRates ;;
           let s' := setRatesMeta (Some (source r), ageMinutes r)
                       (setRates (rates r) s0) in
           ret (if isRefresh
                then setSnackbar (match source r with
                                  | live => MSG_UPDATED
                                  | _ => MSG_CACHED
                                  end) s'
                else s'))
          (fun _ => ret (setSnackbar MSG_FAILED s0)) ;;
  ret (setRefreshing false (setLoading false s1)).

(** ** Save to history *)

(** The number a value binds as, for the values [convert] returns (numbers,
    always). *)
Definition number_of (v : value) : float :=
  match v with
  | VNum x => x
  | _ => nan
  end.

(** [!currentRates || !amt || isNaN(amt) || parseFloat(amt) <= 0]: whether
    there is nothing to record. *)
Definition nothing_to_record (currentRates amt : value) : completion bool :=
  if negb (to_boolean currentRates) then Normal true
  else if negb (to_boolean amt) then Normal true
  else
    (not_numeric <- isNaN amt ;;
     if not_numeric then Normal true
     else
       parsed <- parseFloat amt ;;
       Normal (parsed <=? 0)%float)%js.

(** The conversion recorded: what the timer of [scheduleHistorySave] runs,
    and what the effect of the earlier screen runs at once. *)
Definition recordConversion (from to : string) (amt currentRates : value) : M unit :=
  numericAmount <- lift (parseFloat amt) ;;
  result <- lift (convert (VNum numericAmount) from to currentRates) ;;
  rate <- lift (convert (VNum 1) from to currentRates) ;;
  saveToHistory from to numericAmount (number_of result) (number_of rate).

(** [scheduleHistorySave(from, to, amt, currentRates)]: the pending timer is
    cleared; a new one is armed unless there is nothing to record.  The
    result is the timer then pending, by what it will run. *)
Definition scheduleHistorySave (from to : string) (amt currentRates : value)
    : completion (option (M unit)) :=
  (stop <- nothing_to_record currentRates amt ;;
   Normal (if stop then None else Some (recordConversion from to amt currentRates)))%js.

(** The effect of the earlier screen (screens/ConverterScreen.js): the same
    guard, and the conversion recorded at once. *)
Definition autoSave (s : screen) : M unit :=
  stop <- lift (nothing_to_record (s_rates s) (VStr (s_amount s))) ;;
  if stop then ret tt
  else recordConversion (s_fromCurrency s) (s_toCurrency s)
         (VStr (s_amount s)) (s_rates s).

(** ** Computed result *)

(** [rates && amount && !isNaN(amount) ? convert(parseFloat(amount), ...) : null] *)
Definition computed_result (s : screen) : completion (option value) :=
  if negb (to_boolean (s_rates s)) then Normal None
  else if negb (to_boolean (VStr (s_amount s))) then Normal None
  else
    (not_numeric <- isNaN (VStr (s_amount s)) ;;
     if not_numeric then Normal None
     else
       parsed <- parseFloat (VStr (s_amount s)) ;;
       r <- convert (VNum parsed) (s_fromCurrency s) (s_toCurrency s) (s_rates s) ;;
       Normal (Some r))%js.

(** [rates ? convert(1, fromCurrency, toCurrency, rates) : null] *)
Definition currentRate (s : screen) : completion (option value) :=
  if negb (to_boolean (s_rates s)) then Normal None
  else
    (r <- convert (VNum 1) (s_fromCurrency s) (s_toCurrency s) (s_rates s) ;;
     Normal (Some r))%js.

(** The amount field changes. *)
Definition typed (text : string) (s : screen) : screen :=
  {| s_rates := s_rates s; s_ratesMeta := s_ratesMeta s; s_loading := s_loading s;
     s_refreshing := s_refreshing s;
     s_amount := fst (handleAmountChange text);
     s_displayAmount := snd (handleAmountChange text);
     s_fromCurrency := s_fromCurrency s; s_toCurrency := s_toCurrency s;
     s_rounded := s_rounded s; s_snackbar := s_snackbar s |}.

End Screen.

(* ===================================================================== *)
(** * Vocabulary of the screens *)
(* ===================================================================== *)

Module ScreenVocabulary.
Import JS World RatesService Vocabulary Screen.
Local Open Scope string_scope.

(** A character the amount keeps. *)
Definition numeric_char (c : ascii) : bool := (is_digit c || is_point c)%bool.

Fixpoint count_points (s : list ascii) : nat :=
  match s with
  | [] => 0
  | c :: rest => (if is_point c then 1 else 0) + count_points rest
  end.

(** Digits, with one point at most. *)
Definition plain_amount (s : list ascii) : bool :=
  (forallb numeric_char s && (count_points s <=? 1)%nat)%bool.

(** The text without its commas. *)
Definition strip_commas (s : list ascii) : list ascii :=
  filter (fun c => negb (Ascii.eqb c ",")) s.

(** Digits three by three, a comma before each three. *)
Fixpoint triples (s : list ascii) : list ascii :=
  match s with
  | a :: b :: c :: rest => ","%char :: a :: b :: c :: triples rest
  | _ => []
  end.

(** Digits cut in threes from the right: the one, two or three first digits,
    then the others three by three. *)
Definition thousands (ds : list ascii) : list ascii :=
  let lead := match (List.length ds mod 3)%nat with
              | O => 3%nat
              | k => k
              end in
  (firstn lead ds ++ triples (skipn lead ds))%list.

(** The digits of a text of digits and points. *)
Definition digits_of (s : list ascii) : list ascii :=
  List.concat (split_points s).

(** Steps 2 and 3 of [handleAmountChange], on the stripped text. *)
Definition render (cleaned : list ascii) : list ascii * list ascii :=
  let parts := split_points cleaned in
  let raw :=
    if (2 <? List.length parts)%nat
    then (hd [] parts ++ ["."%char] ++ List.concat (skipn 1 parts))%list
    else cleaned in
  let pieces := split_points raw in
  let formatted :=
    match nth_error pieces 1 with
    | Some d => (insert_commas None (hd [] pieces) ++ ["."%char] ++ d)%list
    | None => insert_commas None (hd [] pieces)
    end in
  (raw, formatted).

(** Rates whose members, if it is an object, are primitive values. *)
Definition primitive_rates (rates : value) : Prop :=
  match rates with
  | VObj o => forallb primitive (map snd o) = true
  | _ => True
  end.

(** A double that is neither a finite number nor a zero: NaN, or infinite. *)
Definition not_finite (y : float) : bool := (is_nan y || is_infinity y)%bool.

End ScreenVocabulary.

(* ===================================================================== *)
(** * Amounts that are not numbers *)
(* ===================================================================== *)

Module Amounts.
Import JS.
Local Open Scope string_scope.












End Amounts.

(* ===================================================================== *)
(** * A session of use, for the examples *)
(* ===================================================================== *)

Module Session.
Import JS World RatesService Scenario Screen.
Local Open Scope string_scope.

(** A conversion recorded a minute before the call. *)
Definition earlier_row : history_row :=
  {| h_id := 1%Z; h_from_currency := "USD"; h_to_currency := "MGA";
     h_amount := 10; h_result := 44000; h_rate := 4400;
     h_converted_at := (call_time / 1000 - 60)%Z |}.

(** A world whose history holds [rows], the last id given being [seq]. *)
Definition with_history (rows : list history_row) (seq : Z) (w : world) : world :=
  with_db {| rates_cache := rates_cache (db w);
             conversion_history := rows;
             history_seq := seq |} w.

(** The application after a first conversion: a snapshot half an hour old
    and one row of history. *)
Definition used : world :=
  with_history [earlier_row] 1 (scene [old_snapshot 30] online healthy).

(** The screen with the provider's rates loaded and 1500 typed. *)
Definition ready : screen := typed "1500" (setRates provider_rates initial_screen).

(** A table with a rate of zero. *)
Definition rates_with_zero : list (string * value) :=
  [("USD", VNum 1); ("XXX", VNum 0)].

End Session.

(* ===================================================================== *)
(** * Properties *)
(* ===================================================================== *)

Import JS World RatesService Vocabulary.
Local Open Scope string_scope.


(** ** Binary64 arithmetic: the unit and NaN *)

Section Binary64.

Local Open Scope Z_scope.

Lemma bounded_inv (m : positive) (e : Z) :
  bounded prec emax m e = true ->
  fexp prec emax (Zpos (digits2_pos m) + e) = e /\ e <= 971.
Proof.
  unfold bounded, canonical_mantissa. intros H.
  apply andb_true_iff in H. destruct H as [H1 H2].
  apply Z.eqb_eq in H1. apply Z.leb_le in H2. split; [exact H1 | exact H2].
Qed.

Lemma iter_pos_iter {A : Type} (f : A -> A) (n : positive) :
  forall x, iter_pos f n x = Pos.iter f x n.
Proof.
  induction n as [n IH | n IH | ]; intros x; simpl.
  - rewrite !IH. now rewrite <- !Pos.iter_swap.
  - now rewrite !IH.
  - reflexivity.
Qed.

Lemma digits2_scaled (k m : positive) :
  Zpos (digits2_pos (Pos.iter xO m k)) = Zpos (digits2_pos m) + Zpos k.
Proof.
  induction k as [ | k IH] using Pos.peano_ind.
  - simpl. lia.
  - rewrite Pos.iter_succ. simpl digits2_pos. lia.
Qed.

Lemma shr_scaled (k : positive) :
  forall m, Pos.iter shr_1 (Build_shr_record (Zpos (Pos.iter xO m k)) false false) k
            = Build_shr_record (Zpos m) false false.
Proof.
  induction k as [ | k IH] using Pos.peano_ind; intros m.
  - reflexivity.
  - rewrite Pos.iter_succ_r. rewrite Pos.iter_succ. simpl shr_1. apply IH.
Qed.

(** Rounding a mantissa that is already canonical changes nothing. *)
Lemma round_canonical (s : bool) (m : positive) (e : Z) :
  bounded prec emax m e = true ->
  binary_round_aux prec emax s (Zpos m) e loc_Exact = S754_finite s m e.
Proof.
  intros H. destruct (bounded_inv m e H) as [Hc He].
  unfold binary_round_aux, shr_fexp. cbn [Zdigits2 shr_record_of_loc].
  rewrite Hc, Z.sub_diag.
  cbn [shr shr_m loc_of_shr_record round_nearest_even Zdigits2 shr_record_of_loc].
  rewrite Hc, Z.sub_diag. cbn [shr shr_m].
  replace (emax - prec) with 971 by reflexivity.
  apply Z.leb_le in He. rewrite He. reflexivity.
Qed.

(** Nor does it when the mantissa carries [k] more zero bits: they are
    shifted out exactly. *)
Lemma round_scaled (s : bool) (m k : positive) (e : Z) :
  bounded prec emax m e = true ->
  binary_round_aux prec emax s (Zpos (Pos.iter xO m k)) (e - Zpos k) loc_Exact
  = S754_finite s m e.
Proof.
  intros H. destruct (bounded_inv m e H) as [Hc He].
  unfold binary_round_aux at 1. unfold shr_fexp at 1.
  cbn [Zdigits2 shr_record_of_loc].
  rewrite digits2_scaled.
  replace (Zpos (digits2_pos m) + Zpos k + (e - Zpos k))
    with (Zpos (digits2_pos m) + e) by lia.
  rewrite Hc.
  replace (e - (e - Zpos k)) with (Zpos k) by lia.
  cbn [shr]. rewrite iter_pos_iter, shr_scaled.
  cbn [shr_m loc_of_shr_record round_nearest_even].
  replace (e - Zpos k + Zpos k) with e by lia.
  unfold shr_fexp. cbn [Zdigits2 shr_record_of_loc].
  rewrite Hc, Z.sub_diag. cbn [shr shr_m].
  replace (emax - prec) with 971 by reflexivity.
  apply Z.leb_le in He. rewrite He. reflexivity.
Qed.

Lemma quotient_exact (a b : Z) :
  b <> 0 -> Z.div_eucl (a * b) b = (a, 0).
Proof.
  intros Hb.
  pose proof (Z.div_mul a b Hb) as Hdiv.
  pose proof (Z.mod_mul a b Hb) as Hmod.
  unfold Z.div, Z.modulo in Hdiv, Hmod.
  destruct (Z.div_eucl (a * b) b) as [q r]. now subst.
Qed.

Lemma SFmul_one (x : spec_float) :
  valid_binary x = true -> SF64mul x one_sf = x.
Proof.
  destruct x as [s | s | | s m e]; intros H; unfold SF64mul, SFmul, one_sf.
  - now rewrite xorb_false_r.
  - now rewrite xorb_false_r.
  - reflexivity.
  - rewrite xorb_false_r, Pos.mul_comm.
    change (4503599627370496 * m)%positive with (Pos.iter xO m 52).
    change (e + -52) with (e - Zpos 52).
    now apply round_scaled.
Qed.

Lemma SFdiv_one (x : spec_float) :
  valid_binary x = true -> SF64div x one_sf = x.
Proof.
  destruct x as [s | s | | s m e]; intros H; unfold SF64div, SFdiv, one_sf.
  - now rewrite xorb_false_r.
  - now rewrite xorb_false_r.
  - reflexivity.
  - rewrite xorb_false_r.
    destruct (bounded_inv m e H) as [Hc He].
    unfold SFdiv_core_binary. cbn [Zdigits2 digits2_pos Pos.succ].
    pose proof (Pos2Z.is_pos (digits2_pos m)) as Hd.
    unfold fexp, SpecFloat.emin in Hc |- *.
    change prec with 53 in *. change emax with 1024 in *.
    destruct (Z.eq_dec e (-1074)) as [Hsub | Hnorm].
    + (* subnormal: the quotient is the mantissa itself *)
      replace (Z.min (Z.max (Z.pos (digits2_pos m) + e - (53 + -52) - 53)
                        (3 - 1024 - 53)) (e - -52))
        with e by lia.
      replace (e - -52 - e) with 52 by lia.
      rewrite Z.shiftl_mul_pow2 by lia.
      change (2 ^ 52) with 4503599627370496.
      rewrite quotient_exact by lia.
      change (new_location 4503599627370496 0) with loc_Exact.
      now apply round_canonical.
    + (* normal: one more bit, shifted out again *)
      replace (Z.min (Z.max (Z.pos (digits2_pos m) + e - (53 + -52) - 53)
                        (3 - 1024 - 53)) (e - -52))
        with (e - 1) by lia.
      replace (e - -52 - (e - 1)) with 53 by lia.
      rewrite Z.shiftl_mul_pow2 by lia.
      replace (Z.pos m * 2 ^ 53) with (Z.pos (Pos.iter xO m 1) * 4503599627370496)
        by (cbn [Pos.iter]; lia).
      rewrite quotient_exact by lia.
      change (new_location 4503599627370496 0) with loc_Exact.
      now apply round_scaled.
Qed.

End Binary64.

Lemma div_one (x : float) : (x / 1)%float = x.
Proof.
  apply Prim2SF_inj. rewrite div_spec.
  change (Prim2SF 1) with one_sf.
  apply SFdiv_one, Prim2SF_valid.
Qed.

Lemma mul_one (x : float) : (x * 1)%float = x.
Proof.
  apply Prim2SF_inj. rewrite mul_spec.
  change (Prim2SF 1) with one_sf.
  apply SFmul_one, Prim2SF_valid.
Qed.

Lemma div_nan_r (x : float) : (x / nan)%float = nan.
Proof.
  apply Prim2SF_inj. rewrite div_spec.
  change (Prim2SF nan) with S754_nan.
  unfold SF64div, SFdiv. now destruct (Prim2SF x).
Qed.

Lemma mul_nan_l (x : float) : (nan * x)%float = nan.
Proof.
  apply Prim2SF_inj. rewrite mul_spec. reflexivity.
Qed.

Lemma mul_nan_r (x : float) : (x * nan)%float = nan.
Proof.
  apply Prim2SF_inj. rewrite mul_spec.
  change (Prim2SF nan) with S754_nan.
  unfold SF64mul, SFmul. now destruct (Prim2SF x).
Qed.
(** ** The pieces of [getRates], run *)

Tactic Notation "world_simpl" :=
  cbn [with_db with_readings with_requests with_statements with_console
       db clock readings provider requests disk_fails statements console fst snd].

Tactic Notation "world_simpl" "in" hyp(H) :=
  cbn [with_db with_readings with_requests with_statements with_console
       db clock readings provider requests disk_fails statements console fst snd] in H.

Lemma fetchLiveRates_run (w : world) :
  fetchLiveRates w
  = (live_rates (provider w (List.length (requests w))),
     with_requests (requests w ++ [RATES_URL]) w).
Proof.
  unfold fetchLiveRates, bind, fetch, live_rates.
  destruct (provider w (List.length (requests w))) as [ | status b]; [reflexivity | ].
  destruct (response_ok status); cbn; [ | reflexivity].
  destruct b as [ | data]; cbn; [reflexivity | ].
  unfold lift.
  destruct (get data "rates") as [r | e]; cbn; [ | reflexivity].
  destruct (get r "USD"); cbn; [ | reflexivity].
  destruct (get r "EUR"); cbn; [ | reflexivity].
  destruct (get r "CNY"); cbn; [ | reflexivity].
  destruct (get r "MGA"); cbn; reflexivity.
Qed.

(** The outcome of a fetch depends on the provider and on the requests sent
    so far, on nothing else. *)
Lemma fetchLiveRates_frame (w w' : world) :
  provider w' = provider w -> requests w' = requests w ->
  fst (fetchLiveRates w') = fst (fetchLiveRates w).
Proof.
  intros Hp Hr. rewrite !fetchLiveRates_run. cbn. now rewrite Hp, Hr.
Qed.

(** A successful fetch yields an object, so [JSON.stringify] yields a text. *)
Lemma live_rates_object (r : reply) (rates : value) :
  live_rates r = Normal rates -> JSON_stringify rates = Some (json_image rates).
Proof.
  unfold live_rates. destruct r as [ | status b]; [discriminate | ].
  destruct (response_ok status); [ | discriminate].
  destruct b as [ | data]; [discriminate | ].
  destruct (get data "rates") as [r | ]; cbn; [ | discriminate].
  destruct (get r "USD"); cbn; [ | discriminate].
  destruct (get r "EUR"); cbn; [ | discriminate].
  destruct (get r "CNY"); cbn; [ | discriminate].
  destruct (get r "MGA"); cbn; [ | discriminate].
  intros H. injection H as <-. reflexivity.
Qed.

Lemma loadRatesFromCache_none (w : world) :
  snapshot (db w) = None ->
  disk_fails w (statements w) = false ->
  loadRatesFromCache w = (Normal None, with_statements (S (statements w)) w).
Proof.
  intros Hs Hd. unfold snapshot in Hs.
  unfold loadRatesFromCache, bind, select_rates_cache, statement.
  rewrite Hd. cbn. rewrite Hs. cbn. now destruct w.
Qed.

Lemma loadRatesFromCache_some (w : world) (row : rates_cache_row) :
  snapshot (db w) = Some row ->
  disk_fails w (statements w) = false ->
  loadRatesFromCache w
  = (Normal (Some (loaded row (clock w (readings w)))),
     with_readings (S (readings w)) (with_statements (S (statements w)) w)).
Proof.
  intros Hs Hd. unfold snapshot in Hs.
  unfold loadRatesFromCache, bind, select_rates_cache, statement.
  rewrite Hd. cbn. rewrite Hs. cbn. reflexivity.
Qed.

(** A failed load leaves [getRates] failed: nothing catches it. *)
Lemma loadRatesFromCache_fails (w : world) :
  disk_fails w (statements w) = true ->
  loadRatesFromCache w = (Throw SQLiteError, with_statements (S (statements w)) w).
Proof.
  intros Hd. unfold loadRatesFromCache, bind, select_rates_cache, statement.
  now rewrite Hd.
Qed.

(** Saving on a healthy disk: row 1 is inserted, or overwritten. *)
Lemma saveRatesToCache_run (w : world) (rates : value) :
  JSON_stringify rates = Some (json_image rates) ->
  disk_fails w (statements w) = false ->
  disk_fails w (S (statements w)) = false ->
  let row := snapshot_row rates (clock w (readings w)) in
  let table := rates_cache (db w) in
  saveRatesToCache rates w
  = (Normal tt,
     with_db {| rates_cache := match snapshot (db w) with
                               | Some _ => overwritten row table
                               | None => table ++ [row]
                               end;
                conversion_history := conversion_history (db w);
                history_seq := history_seq (db w) |}
       (with_statements (S (S (statements w))) (with_readings (S (readings w)) w))).
Proof.
  intros Hj H0 H1. unfold snapshot.
  unfold saveRatesToCache, bind, Date_now, select_rates_cache, statement. cbn.
  rewrite H0. cbn.
  destruct (find (fun r => (rc_id r =? 1)%Z) (rates_cache (db w))) as [old | ] eqn:Hf.
  - unfold update_rates_cache, statement. world_simpl. rewrite H1, Hj.
    unfold overwritten, snapshot_row. do 3 f_equal.
    apply map_ext. intros r. destruct (rc_id r =? 1)%Z eqn:Hr; [ | reflexivity].
    apply Z.eqb_eq in Hr. now rewrite Hr.
  - unfold insert_rates_cache, statement. world_simpl. rewrite H1, Hj.
    assert (He : existsb (fun r => (rc_id r =? 1)%Z) (rates_cache (db w)) = false).
    { destruct (existsb _ _) eqn:Hex; [ | reflexivity].
      apply existsb_exists in Hex. destruct Hex as (r & Hin & Hr).
      now rewrite (find_none _ _ Hf r Hin) in Hr. }
    rewrite He. reflexivity.
Qed.

(** Saving never changes the database when it throws. *)
Lemma saveRatesToCache_throws (w : world) (rates : value) (e : exn) :
  fst (saveRatesToCache rates w) = Throw e ->
  db (snd (saveRatesToCache rates w)) = db w.
Proof.
  unfold saveRatesToCache, bind, Date_now, select_rates_cache, statement. cbn.
  destruct (disk_fails w (statements w)); cbn; [reflexivity | ].
  destruct (find _ _).
  - unfold update_rates_cache, statement. cbn.
    destruct (disk_fails w (S (statements w))); cbn; [reflexivity | ].
    destruct (JSON_stringify rates); cbn; [discriminate | ].
    destruct (existsb _ _); cbn; [reflexivity | discriminate].
  - unfold insert_rates_cache, statement. cbn.
    destruct (disk_fails w (S (statements w))); cbn; [reflexivity | ].
    destruct (JSON_stringify rates); cbn; [ | reflexivity].
    destruct (existsb _ _); cbn; [reflexivity | discriminate].
Qed.

Lemma row1_appended (table : list rates_cache_row) (row : rates_cache_row) :
  find (fun r => (rc_id r =? 1)%Z) table = None ->
  rc_id row = 1%Z ->
  find (fun r => (rc_id r =? 1)%Z) (table ++ [row]) = Some row.
Proof.
  intros Hn Hid. induction table as [ | r table IH]; cbn in *.
  - now rewrite Hid.
  - destruct (rc_id r =? 1)%Z; [discriminate | now apply IH].
Qed.

Lemma row1_overwritten (table : list rates_cache_row) (row old : rates_cache_row) :
  find (fun r => (rc_id r =? 1)%Z) table = Some old ->
  rc_id row = 1%Z ->
  find (fun r => (rc_id r =? 1)%Z) (overwritten row table) = Some row.
Proof.
  unfold overwritten. intros Hs Hid.
  induction table as [ | r table IH]; cbn in *; [discriminate | ].
  destruct (rc_id r =? 1)%Z eqn:Hr.
  - now rewrite Hid.
  - rewrite Hr. now apply IH.
Qed.

(** ** Rate resolution *)

(** C1. With no snapshot in the store (and a database that runs its
    statements), [getRates] sends exactly one request.  When the fetch
    succeeds it answers the fetched rates as [live] and the store then holds
    them as its snapshot; when the fetch fails it answers the built-in table
    as [fallback], without [fetchedAt] or [ageMinutes], and the database is
    as it was. *)
Theorem getRates_empty_store (w : world) :
  snapshot (db w) = None ->
  (forall n, disk_fails w n = false) ->
  requests (snd (getRates w)) = (requests w ++ [RATES_URL])%list /\
  (forall fetched,
     fst (fetchLiveRates w) = Normal fetched ->
     fst (getRates w)
     = Normal {| rates := fetched; source := live;
                 fetchedAt := Some (clock w (S (readings w)));
                 ageMinutes := Some 0%Z |} /\
     rates_cache (db (snd (getRates w)))
     = (rates_cache (db w) ++ [snapshot_row fetched (clock w (readings w))])%list /\
     snapshot (db (snd (getRates w)))
     = Some (snapshot_row fetched (clock w (readings w)))) /\
  (forall e,
     fst (fetchLiveRates w) = Throw e ->
     fst (getRates w)
     = Normal {| rates := FALLBACK_RATES_FROM_USD; source := fallback;
                 fetchedAt := None; ageMinutes := None |} /\
     db (snd (getRates w)) = db w).
Proof.
  intros Hs Hd.
  remember (getRates w) as g eqn:Hg.
  unfold getRates, bind at 1 in Hg.
  rewrite (loadRatesFromCache_none w Hs (Hd _)) in Hg.
  unfold try_catch, bind at 1 in Hg.
  rewrite fetchLiveRates_run in Hg. world_simpl in Hg.
  rewrite !fetchLiveRates_run. cbn [fst].
  destruct (live_rates (provider w (List.length (requests w)))) as [fetched | e] eqn:Hl.
  - unfold bind in Hg.
    rewrite saveRatesToCache_run in Hg
      by (world_simpl; eauto using live_rates_object).
    world_simpl in Hg. rewrite Hs in Hg. cbn in Hg. subst g. cbn.
    split; [reflexivity | split].
    + intros f Hf. injection Hf as <-.
      split; [reflexivity | split; [reflexivity | ]].
      unfold snapshot in *. cbn [rates_cache].
      now apply row1_appended.
      (* row 1 is the appended row *)
    + intros e He. discriminate He.
  - cbn in Hg. subst g. cbn. split; [reflexivity | split].
    + intros f Hf. discriminate Hf.
    + intros e' _. split; reflexivity.
Qed.

(** C2. With a snapshot less than one hour old in the store, [getRates]
    answers that snapshot's rates as [cache], with the minutes elapsed since
    it was fetched, and sends no request. *)
Theorem getRates_fresh_cache (w : world) (row : rates_cache_row) :
  snapshot (db w) = Some row ->
  disk_fails w (statements w) = false ->
  (clock w (readings w) - rc_fetched_at row < CACHE_DURATION_MS)%Z ->
  fst (getRates w)
  = Normal {| rates := rc_rates row; source := cache;
              fetchedAt := Some (rc_fetched_at row);
              ageMinutes := Some ((clock w (readings w) - rc_fetched_at row) / 60000)%Z |} /\
  requests (snd (getRates w)) = requests w /\
  db (snd (getRates w)) = db w.
Proof.
  intros Hs Hd Hfresh.
  remember (getRates w) as g eqn:Hg.
  unfold getRates, bind at 1 in Hg.
  rewrite (loadRatesFromCache_some w row Hs Hd) in Hg.
  cbn [isFresh loaded] in Hg.
  apply Z.ltb_lt in Hfresh. rewrite Hfresh in Hg.
  cbn in Hg. subst g. cbn. repeat split.
Qed.

(** C3. With a snapshot one hour old or more in the store and a fetch that
    fails, [getRates] answers the stale snapshot's rates as [cache], with the
    minutes elapsed since it was fetched, and the database is as it was. *)
Theorem getRates_stale_cache_fetch_fails (w : world) (row : rates_cache_row) (e : exn) :
  snapshot (db w) = Some row ->
  disk_fails w (statements w) = false ->
  (CACHE_DURATION_MS <= clock w (readings w) - rc_fetched_at row)%Z ->
  fst (fetchLiveRates w) = Throw e ->
  fst (getRates w)
  = Normal {| rates := rc_rates row; source := cache;
              fetchedAt := Some (rc_fetched_at row);
              ageMinutes := Some ((clock w (readings w) - rc_fetched_at row) / 60000)%Z |} /\
  db (snd (getRates w)) = db w /\
  snapshot (db (snd (getRates w))) = Some row.
Proof.
  intros Hs Hd Hstale Hf.
  rewrite fetchLiveRates_run in Hf. cbn [fst] in Hf.
  remember (getRates w) as g eqn:Hg.
  unfold getRates, bind at 1 in Hg.
  rewrite (loadRatesFromCache_some w row Hs Hd) in Hg.
  cbn [isFresh loaded] in Hg.
  apply Z.ltb_ge in Hstale. rewrite Hstale in Hg.
  unfold try_catch, bind at 1 in Hg.
  rewrite fetchLiveRates_run in Hg. world_simpl in Hg. rewrite Hf in Hg.
  cbn in Hg. subst g. cbn. repeat split. exact Hs.
Qed.

(** C4. With a snapshot one hour old or more in the store, a fetch that
    succeeds and a database that runs its statements, [getRates] answers the
    fetched rates as [live] with [ageMinutes] 0; afterwards row 1 of the store
    is the new snapshot, written whole over the old one at the time of the
    save, and no row was added. *)
Theorem getRates_stale_cache_fetch_succeeds (w : world) (row : rates_cache_row)
    (fetched : value) :
  snapshot (db w) = Some row ->
  (forall n, disk_fails w n = false) ->
  (CACHE_DURATION_MS <= clock w (readings w) - rc_fetched_at row)%Z ->
  fst (fetchLiveRates w) = Normal fetched ->
  let now := clock w (S (readings w)) in
  fst (getRates w)
  = Normal {| rates := fetched; source := live;
              fetchedAt := Some (clock w (S (S (readings w))));
              ageMinutes := Some 0%Z |} /\
  snapshot (db (snd (getRates w))) = Some (snapshot_row fetched now) /\
  rates_cache (db (snd (getRates w)))
  = overwritten (snapshot_row fetched now) (rates_cache (db w)) /\
  (rates_cache (db w) = [row] ->
   rates_cache (db (snd (getRates w))) = [snapshot_row fetched now]).
Proof.
  intros Hs Hd Hstale Hf now.
  rewrite fetchLiveRates_run in Hf. cbn [fst] in Hf.
  remember (getRates w) as g eqn:Hg.
  unfold getRates, bind at 1 in Hg.
  rewrite (loadRatesFromCache_some w row Hs (Hd _)) in Hg.
  cbn [isFresh loaded] in Hg.
  apply Z.ltb_ge in Hstale. rewrite Hstale in Hg.
  unfold try_catch, bind at 1 in Hg.
  rewrite fetchLiveRates_run in Hg. world_simpl in Hg. rewrite Hf in Hg.
  unfold bind in Hg.
  rewrite saveRatesToCache_run in Hg
    by (world_simpl; eauto using live_rates_object).
  world_simpl in Hg. rewrite Hs in Hg. cbn in Hg. subst g. cbn.
  split; [reflexivity | split; [ | split]].
  - unfold snapshot in *. cbn [rates_cache].
    now apply (row1_overwritten _ _ row).
  - reflexivity.
  - intros Ht. rewrite Ht. unfold overwritten. cbn [map].
    unfold snapshot in Hs. rewrite Ht in Hs. cbn in Hs.
    destruct (rc_id row =? 1)%Z; [reflexivity | discriminate].
Qed.

Lemma loadRatesFromCache_db (w : world) :
  db (snd (loadRatesFromCache w)) = db w.
Proof.
  unfold loadRatesFromCache, bind, select_rates_cache, statement.
  destruct (disk_fails w (statements w)); [reflexivity | ].
  cbn. destruct (find _ _); reflexivity.
Qed.

(** C5, as the code has it.  The save runs inside the [try] block, so when the
    fetch succeeds and the save throws, the handler answers as for a failed
    fetch: the stale snapshot as [cache] when one was loaded, the built-in
    table as [fallback] otherwise; [getRates] does not fail and the database
    is as it was. *)
Theorem getRates_save_fails (w w1 w2 : world) (c : option cached)
    (fetched : value) (e : exn) :
  loadRatesFromCache w = (Normal c, w1) ->
  match c with Some c => isFresh c = false | None => True end ->
  fetchLiveRates w1 = (Normal fetched, w2) ->
  fst (saveRatesToCache fetched w2) = Throw e ->
  fst (getRates w)
  = Normal match c with
           | Some c => {| rates := c_rates c; source := cache;
                          fetchedAt := Some (c_fetchedAt c);
                          ageMinutes := Some (c_ageMinutes c) |}
           | None => {| rates := FALLBACK_RATES_FROM_USD; source := fallback;
                        fetchedAt := None; ageMinutes := None |}
           end /\
  db (snd (getRates w)) = db w.
Proof.
  intros Hload Hstale Hfetch Hsave.
  pose proof (loadRatesFromCache_db w) as Hdb1. rewrite Hload in Hdb1. cbn in Hdb1.
  pose proof (fetchLiveRates_run w1) as Hrun. rewrite Hfetch in Hrun.
  injection Hrun as _ Hw2.
  pose proof (saveRatesToCache_throws w2 fetched e Hsave) as Hdb3.
  remember (getRates w) as g eqn:Hg.
  unfold getRates, bind at 1 in Hg. rewrite Hload in Hg.
  destruct (saveRatesToCache fetched w2) as [r w3] eqn:Hs. cbn in Hsave, Hdb3. subst r.
  assert (Hdb : db w3 = db w) by (rewrite Hdb3, Hw2; cbn; exact Hdb1).
  destruct c as [c | ].
  - rewrite Hstale in Hg.
    unfold try_catch, bind at 1 in Hg. rewrite Hfetch in Hg.
    unfold bind at 1 in Hg. rewrite Hs in Hg.
    cbn in Hg. subst g. cbn. split; [reflexivity | exact Hdb].
  - unfold try_catch, bind at 1 in Hg. rewrite Hfetch in Hg.
    unfold bind at 1 in Hg. rewrite Hs in Hg.
    cbn in Hg. subst g. cbn. split; [reflexivity | exact Hdb].
Qed.

(** ** The remote rate source *)

(** A value that is neither undefined nor null has every member read. *)
Lemma get_total (r : value) (k : string) :
  r <> VUndefined -> r <> VNull -> get r k = Normal (member r k).
Proof.
  intros Hu Hn. unfold member.
  destruct r; try contradiction; cbn; try reflexivity.
  destruct (String.eqb k "length"); [reflexivity | ].
  destruct (canonical_index k); [ | reflexivity].
  destruct (String.get n s); reflexivity.
Qed.

Lemma get_throws (v : value) (k : string) (e : exn) :
  get v k = Throw e -> e = TypeError /\ (v = VUndefined \/ v = VNull).
Proof.
  destruct v; cbn; intros H; try discriminate H;
    try (injection H as <-; split; [reflexivity | tauto]).
  destruct (String.eqb k "length"); [discriminate H | ].
  destruct (canonical_index k); [ | discriminate H].
  destruct (String.get n s); discriminate H.
Qed.

(** C8, as the code has it.  When the response has a success status and its
    body parses to a document whose [rates] member can be read (it is neither
    undefined nor null), [fetchLiveRates] does not fail: it returns the four
    members USD, EUR, CNY and MGA, each with what [rates] holds under that
    name, which is [undefined] for a currency the provider left out. *)
Theorem fetchLiveRates_extracts (w : world) (status : Z) (data r : value) :
  provider w (List.length (requests w)) = Response status (Document data) ->
  response_ok status = true ->
  get data "rates" = Normal r ->
  r <> VUndefined -> r <> VNull ->
  fst (fetchLiveRates w)
  = Normal (VObj [("USD", member r "USD"); ("EUR", member r "EUR");
                  ("CNY", member r "CNY"); ("MGA", member r "MGA")]).
Proof.
  intros Hp Hok Hr Hu Hn.
  rewrite fetchLiveRates_run. cbn [fst]. rewrite Hp. unfold live_rates.
  rewrite Hok, Hr. cbn [cbind].
  now rewrite !get_total by assumption.
Qed.

(** When the document has no [rates] to read from, the fetch fails. *)
Lemma fetchLiveRates_without_rates (w : world) (status : Z) (data r : value) :
  provider w (List.length (requests w)) = Response status (Document data) ->
  response_ok status = true ->
  get data "rates" = Normal r ->
  r = VUndefined \/ r = VNull ->
  fst (fetchLiveRates w) = Throw TypeError.
Proof.
  intros Hp Hok Hr Hnone.
  rewrite fetchLiveRates_run. cbn [fst]. rewrite Hp. unfold live_rates.
  rewrite Hok, Hr. destruct Hnone as [-> | ->]; reflexivity.
Qed.

(** The fetch fails for four reasons and no other: no response, a status that
    is not a success, a body that is not JSON, a document without [rates]. *)
Lemma fetchLiveRates_failures (w : world) (e : exn) :
  fst (fetchLiveRates w) = Throw e ->
  match provider w (List.length (requests w)) with
  | NoReply => e = FetchRejected
  | Response status b =>
      if response_ok status then
        match b with
        | Malformed => e = SyntaxError
        | Document data =>
            e = TypeError /\
            (data = VUndefined \/ data = VNull \/
             get data "rates" = Normal VUndefined \/ get data "rates" = Normal VNull)
        end
      else e = HttpError status
  end.
Proof.
  rewrite fetchLiveRates_run. cbn [fst]. unfold live_rates.
  destruct (provider w (List.length (requests w))) as [ | status b].
  - intros H. now injection H.
  - destruct (response_ok status); [ | intros H; now injection H].
    destruct b as [ | data]; [intros H; now injection H | ].
    destruct (get data "rates") as [r | e0] eqn:Hr; cbn [cbind].
    + destruct (get r "USD") as [usd | e1] eqn:Husd; cbn [cbind].
      * assert (Hu : r <> VUndefined) by (intros ->; discriminate Husd).
        assert (Hn : r <> VNull) by (intros ->; discriminate Husd).
        rewrite !get_total by assumption. intros H. discriminate H.
      * intros H. injection H as <-.
        destruct (get_throws r "USD" e1 Husd) as (-> & [-> | ->]);
          (split; [reflexivity | tauto]).
    + intros H. injection H as <-.
      destruct (get_throws data "rates" e0 Hr) as (-> & [-> | ->]);
        (split; [reflexivity | tauto]).
Qed.

(** ** History *)

Lemma saveToHistory_returns (w : world) (from to : string) (amount result rate : float) :
  fst (saveToHistory from to amount result rate w) = Normal tt.
Proof.
  unfold saveToHistory, try_catch, bind, Date_now, statement. world_simpl.
  destruct (disk_fails w (statements w)); [reflexivity | ].
  unfold insert_history.
  destruct (is_nan amount || is_nan result || is_nan rate)%bool; reflexivity.
Qed.

Lemma getHistory_returns (w : world) (limit : Z) :
  exists rows, fst (getHistory limit w) = Normal rows /\
               (disk_fails w (statements w) = true -> rows = []).
Proof.
  unfold getHistory, try_catch, statement, select_history.
  destruct (disk_fails w (statements w)); cbn.
  - exists []. split; [reflexivity | reflexivity].
  - destruct (is_limit limit); cbn; eexists; (split; [reflexivity | discriminate]).
Qed.

Lemma clearHistory_propagates (w : world) :
  disk_fails w (statements w) = true ->
  fst (clearHistory w) = Throw SQLiteError.
Proof.
  intros Hd. unfold clearHistory, statement. now rewrite Hd.
Qed.

(** C9, at a database that fails its statements: [saveToHistory] returns and
    [getHistory] returns the empty sequence, but [clearHistory], which has no
    [try], throws to its caller. *)
Theorem clearHistory_throws_on_storage_error :
  fst (saveToHistory "USD" "MGA" 10 44000 4400
         (Scenario.scene [] Scenario.online Scenario.broken)) = Normal tt /\
  fst (getHistory 30 (Scenario.scene [] Scenario.online Scenario.broken)) = Normal [] /\
  fst (clearHistory (Scenario.scene [] Scenario.online Scenario.broken))
  = Throw SQLiteError.
Proof. repeat split. Qed.

(** ** Conversion *)

Lemma to_number_primitive (v : value) :
  primitive v = true -> exists x, to_number v = Normal x.
Proof.
  destruct v; cbn; intros H; try discriminate; eauto.
Qed.

Lemma own_primitive (o : list (string * value)) (k : string) (v : value) :
  forallb primitive (map snd o) = true -> own o k = Some v -> primitive v = true.
Proof.
  induction o as [ | [k' v'] o IH]; cbn; intros Hall Hown; [discriminate | ].
  apply andb_true_iff in Hall. destruct Hall as [Hv Ho].
  destruct (String.eqb k' k).
  - injection Hown as <-. exact Hv.
  - now apply IH.
Qed.

(** An amount [isNaN] accepts is one [parseFloat] reads without throwing. *)
Lemma parseFloat_of_numeric (amount : value) (b : bool) :
  isNaN amount = Normal b -> exists p, parseFloat amount = Normal p.
Proof.
  unfold isNaN, parseFloat.
  destruct amount; cbn [to_number cbind]; eauto.
  destruct (has_own members "toString"); [intros H; discriminate H | eauto].
Qed.


(** Between two currencies whose rates are numbers, a number that is not NaN
    is divided by the first rate and multiplied by the second, in binary64. *)
Lemma convert_numbers (x ra rb : float) (a b : string) (o : list (string * value)) :
  is_nan x = false ->
  own o a = Some (VNum ra) ->
  own o b = Some (VNum rb) ->
  convert (VNum x) a b (VObj o)
  = Normal (VNum ((if is_zero x then 0 else x) / ra * rb)%float).
Proof.
  intros Hx Ha Hb. unfold convert. cbn. rewrite Hx, Ha. cbn. now rewrite Hb.
Qed.

(** C7, as the code has it.  When the rate of [a] is exactly 1, as that of the
    base currency is, converting a number [x] (not NaN) from [a] to [a] gives
    [x] back exactly: the very same double, except that the negative zero
    comes back as the positive zero, which [===] holds equal to it. *)
Theorem convert_same_currency_unit_rate (x : float) (a : string)
    (o : list (string * value)) :
  is_nan x = false ->
  own o a = Some (VNum 1) ->
  convert (VNum x) a a (VObj o) = Normal (VNum (if is_zero x then 0 else x)) /\
  ((if is_zero x then 0 else x) =? x)%float = true.
Proof.
  intros Hx Ha. split.
  - rewrite (convert_numbers x 1 1 a a o Hx Ha Ha).
    now rewrite div_one, mul_one.
  - unfold is_zero. destruct (x =? zero)%float eqn:Hz.
    + rewrite eqb_spec in Hz |- *.
      change (Prim2SF zero) with (S754_zero false) in Hz.
      change (Prim2SF 0) with (S754_zero false).
      destruct (Prim2SF x) as [[|] | [|] | | [|] m e];
        (reflexivity || discriminate Hz).
    + unfold is_nan in Hx. now apply negb_false_iff in Hx.
Qed.

(** C10. With [rates] an object of primitive members and [amount] a valid
    number ([isNaN] is false, and it is not the empty string), a currency
    without a member in [rates] makes [convert] return NaN: it neither returns
    0 nor throws. *)
Theorem convert_unknown_currency (amount : value) (fromCurrency toCurrency : string)
    (o : list (string * value)) :
  isNaN amount = Normal false ->
  amount <> VStr EmptyString ->
  forallb primitive (map snd o) = true ->
  own o fromCurrency = None \/ own o toCurrency = None ->
  convert amount fromCurrency toCurrency (VObj o) = Normal (VNum nan) /\
  convert amount fromCurrency toCurrency (VObj o) <> Normal (VNum 0).
Proof.
  intros Hnum Hne Hprim Hmiss.
  assert (Hc : convert amount fromCurrency toCurrency (VObj o) = Normal (VNum nan)).
  { unfold convert. cbn [to_boolean negb]. rewrite Hnum.
    assert (He : is_empty_string amount = false).
    { destruct amount; try reflexivity. cbn.
      destruct s; [now contradiction Hne | reflexivity]. }
    rewrite He.
    destruct (parseFloat_of_numeric amount _ Hnum) as [p Hp]. rewrite Hp.
    cbn [cbind orb get js_div js_mul to_number].
    assert (Hrate : forall k, exists y,
               to_number (match own o k with Some v => v | None => VUndefined end)
               = Normal y /\ (own o k = None -> y = nan)).
    { intros k. destruct (own o k) as [v | ] eqn:Hk.
      - destruct (to_number_primitive v (own_primitive o k v Hprim Hk)) as [y Hy].
        exists y. split; [exact Hy | discriminate].
      - exists nan. split; reflexivity. }
    destruct (Hrate fromCurrency) as (y & Hy & Hyn).
    destruct (Hrate toCurrency) as (z & Hz & Hzn).
    rewrite Hy. cbn [cbind to_number]. unfold js_mul. cbn [cbind to_number].
    rewrite Hz. cbn [cbind].
    destruct Hmiss as [Hm | Hm].
    - rewrite (Hyn Hm), div_nan_r, mul_nan_l. reflexivity.
    - rewrite (Hzn Hm), mul_nan_r. reflexivity. }
  split; [exact Hc | ].
  rewrite Hc. intros H.
  apply (f_equal (fun c => match c with
                           | Normal (VNum y) => is_nan y
                           | _ => false
                           end)) in H.
  discriminate H.
Qed.

(** ** The statements at work *)

Import Scenario.

(** [CACHE_DURATION_MS] is one hour. *)
Lemma CACHE_DURATION_MS_is_one_hour : CACHE_DURATION_MS = minutes 60.
Proof. reflexivity. Qed.

(** An empty store and a provider that answers. *)
Lemma getRates_empty_store_witness :
  requests (snd (getRates (scene [] online healthy))) = [RATES_URL] /\
  fst (getRates (scene [] online healthy))
  = Normal {| rates := provider_rates; source := live;
              fetchedAt := Some (call_time + 1)%Z; ageMinutes := Some 0%Z |} /\
  rates_cache (db (snd (getRates (scene [] online healthy))))
  = [snapshot_row provider_rates call_time].
Proof.
  destruct (getRates_empty_store (scene [] online healthy)
              eq_refl (fun _ => eq_refl)) as (Hreq & Hlive & _).
  destruct (Hlive provider_rates eq_refl) as (Hres & Htable & _).
  split; [exact Hreq | split; [exact Hres | exact Htable]].
Defined.

(** A snapshot 30 minutes old. *)
Lemma getRates_fresh_cache_witness :
  fst (getRates (scene [old_snapshot 30] online healthy))
  = Normal {| rates := rc_rates (old_snapshot 30); source := cache;
              fetchedAt := Some (call_time - minutes 30)%Z;
              ageMinutes := Some 30%Z |} /\
  requests (snd (getRates (scene [old_snapshot 30] online healthy))) = [].
Proof.
  destruct (getRates_fresh_cache (scene [old_snapshot 30] online healthy)
              (old_snapshot 30) eq_refl eq_refl eq_refl) as (Hres & Hreq & _).
  split; [exact Hres | exact Hreq].
Defined.

(** A snapshot 90 minutes old and no network. *)
Lemma getRates_stale_cache_fetch_fails_witness :
  fst (getRates (scene [old_snapshot 90] offline healthy))
  = Normal {| rates := rc_rates (old_snapshot 90); source := cache;
              fetchedAt := Some (call_time - minutes 90)%Z;
              ageMinutes := Some 90%Z |} /\
  db (snd (getRates (scene [old_snapshot 90] offline healthy)))
  = db (scene [old_snapshot 90] offline healthy).
Proof.
  assert (Hstale : (CACHE_DURATION_MS
                    <= clock (scene [old_snapshot 90] offline healthy)
                         (readings (scene [old_snapshot 90] offline healthy))
                       - rc_fetched_at (old_snapshot 90))%Z)
    by (vm_compute; discriminate).
  destruct (getRates_stale_cache_fetch_fails
              (scene [old_snapshot 90] offline healthy) (old_snapshot 90)
              FetchRejected eq_refl eq_refl Hstale eq_refl) as (Hres & Hdb & _).
  split; [exact Hres | exact Hdb].
Defined.

(** A snapshot 90 minutes old and a provider that answers
    [{USD: 1, EUR: 0.9, CNY: 7.2, MGA: 4400}]. *)
Lemma getRates_stale_cache_fetch_succeeds_witness :
  fst (getRates (scene [old_snapshot 90] online healthy))
  = Normal {| rates := provider_rates; source := live;
              fetchedAt := Some (call_time + 2)%Z; ageMinutes := Some 0%Z |} /\
  rates_cache (db (snd (getRates (scene [old_snapshot 90] online healthy))))
  = [{| rc_id := 1; rc_base := "USD"; rc_rates := provider_rates;
        rc_fetched_at := (call_time + 1)%Z |}].
Proof.
  assert (Hstale : (CACHE_DURATION_MS
                    <= clock (scene [old_snapshot 90] online healthy)
                         (readings (scene [old_snapshot 90] online healthy))
                       - rc_fetched_at (old_snapshot 90))%Z)
    by (vm_compute; discriminate).
  destruct (getRates_stale_cache_fetch_succeeds
              (scene [old_snapshot 90] online healthy) (old_snapshot 90)
              provider_rates eq_refl (fun _ => eq_refl) Hstale eq_refl)
    as (Hres & _ & _ & Hone).
  split; [exact Hres | exact (Hone eq_refl)].
Defined.

(** C5 fails here: the store is empty, the provider answers, the write of the
    row fails, and the answer is the built-in table as [fallback], not the
    fetched rates as [live]. *)
Lemma getRates_save_fails_counterexample :
  fst (fetchLiveRates (snd (loadRatesFromCache (scene [] online fails_on_write))))
  = Normal provider_rates /\
  fst (saveRatesToCache provider_rates
         (snd (fetchLiveRates (snd (loadRatesFromCache (scene [] online fails_on_write))))))
  = Throw SQLiteError /\
  fst (getRates (scene [] online fails_on_write))
  = Normal {| rates := FALLBACK_RATES_FROM_USD; source := fallback;
              fetchedAt := None; ageMinutes := None |}.
Proof. repeat split. Qed.

(** The same scene, through the theorem. *)
Lemma getRates_save_fails_witness :
  fst (getRates (scene [] online fails_on_write))
  = Normal {| rates := FALLBACK_RATES_FROM_USD; source := fallback;
              fetchedAt := None; ageMinutes := None |} /\
  db (snd (getRates (scene [] online fails_on_write)))
  = db (scene [] online fails_on_write).
Proof.
  exact (getRates_save_fails (scene [] online fails_on_write)
           (snd (loadRatesFromCache (scene [] online fails_on_write)))
           (snd (fetchLiveRates (snd (loadRatesFromCache (scene [] online fails_on_write)))))
           None provider_rates SQLiteError eq_refl I eq_refl eq_refl).
Defined.

(** With a stale snapshot in the store, the same failure answers the stale
    rates as [cache], and the old row stays. *)
Example getRates_save_fails_stale :
  fst (getRates (scene [old_snapshot 90] online fails_on_write))
  = Normal {| rates := rc_rates (old_snapshot 90); source := cache;
              fetchedAt := Some (call_time - minutes 90)%Z;
              ageMinutes := Some 90%Z |} /\
  rates_cache (db (snd (getRates (scene [old_snapshot 90] online fails_on_write))))
  = [old_snapshot 90].
Proof. split; reflexivity. Qed.

(** C8 fails here: the provider left MGA out, and the fetch returns a mapping
    whose MGA is undefined instead of failing; written to the cache, the
    mapping has no MGA at all. *)
Lemma fetchLiveRates_missing_currency_counterexample :
  fst (fetchLiveRates (scene [] (Response 200 (Document document_without_MGA)) healthy))
  = Normal (VObj [("USD", VNum 1); ("EUR", VNum 0.9); ("CNY", VNum 7.2);
                  ("MGA", VUndefined)]) /\
  JSON_stringify (VObj [("USD", VNum 1); ("EUR", VNum 0.9); ("CNY", VNum 7.2);
                        ("MGA", VUndefined)])
  = Some (VObj [("USD", VNum 1); ("EUR", VNum 0.9); ("CNY", VNum 7.2)]).
Proof. split; reflexivity. Qed.

Lemma fetchLiveRates_extracts_witness :
  fst (fetchLiveRates (scene [] online healthy)) = Normal provider_rates.
Proof.
  refine (fetchLiveRates_extracts (scene [] online healthy) 200 provider_document
            (member provider_document "rates") eq_refl eq_refl eq_refl _ _);
    discriminate.
Defined.

(** C7 fails here: 15 ariary converted to ariary with the built-in table
    (rate 4500) is 15.000000000000002. *)
Lemma convert_same_currency_counterexample :
  own [("USD", VNum 1); ("EUR", VNum 0.92); ("CNY", VNum 7.24); ("MGA", VNum 4500)] "MGA"
  = Some (VNum 4500) /\
  convert (VNum 15) "MGA" "MGA" FALLBACK_RATES_FROM_USD
  = Normal (VNum 15.000000000000002) /\
  (15.000000000000002 =? 15)%float = false.
Proof. repeat split. Qed.

(** 15 dollars converted to dollars are 15 dollars. *)
Lemma convert_same_currency_unit_rate_witness :
  convert (VNum 15) "USD" "USD" FALLBACK_RATES_FROM_USD = Normal (VNum 15).
Proof.
  exact (proj1 (convert_same_currency_unit_rate 15 "USD"
                  [("USD", VNum 1); ("EUR", VNum 0.92); ("CNY", VNum 7.24);
                   ("MGA", VNum 4500)] eq_refl eq_refl)).
Defined.

(** A currency the table does not know. *)
Lemma convert_unknown_currency_witness :
  convert (VNum 100) "GBP" "MGA" FALLBACK_RATES_FROM_USD = Normal (VNum nan).
Proof.
  refine (proj1 (convert_unknown_currency (VNum 100) "GBP" "MGA"
                   [("USD", VNum 1); ("EUR", VNum 0.92); ("CNY", VNum 7.24);
                    ("MGA", VNum 4500)] eq_refl _ eq_refl (or_introl eq_refl))).
  discriminate.
Defined.

(** The guard and the parse can disagree: [null], [true] and blank text pass
    [isNaN] (they convert to 0, 1 and 0) yet [parseFloat] reads NaN from
    them, and [convert] returns NaN. *)
Example convert_null_amount :
  convert VNull "USD" "MGA" FALLBACK_RATES_FROM_USD = Normal (VNum nan).
Proof. reflexivity. Qed.

Example convert_blank_amount :
  convert (VStr " ") "USD" "MGA" FALLBACK_RATES_FROM_USD = Normal (VNum nan).
Proof. reflexivity. Qed.

(** Text amounts are read as the input field gives them. *)
Example convert_text_amount :
  convert (VStr "2.5") "USD" "MGA" FALLBACK_RATES_FROM_USD = Normal (VNum 11250).
Proof. reflexivity. Qed.

(** With [rates] null, nothing is read from it. *)
Example convert_without_rates :
  convert (VNum 10) "USD" "MGA" VNull = Normal (VNum 0).
Proof. reflexivity. Qed.

(** A failed read of the cache is not caught: [getRates] fails with it. *)
Lemma getRates_load_fails (w : world) :
  disk_fails w (statements w) = true ->
  fst (getRates w) = Throw SQLiteError.
Proof.
  intros Hd. unfold getRates, bind.
  now rewrite (loadRatesFromCache_fails w Hd).
Qed.

(* ===================================================================== *)
(** * Further properties of the rates service *)
(* ===================================================================== *)

Import Invariant.

(** ** Every way a call of [getRates] can go *)

Lemma same_surroundings_refl (w : world) : same_surroundings w w.
Proof. repeat split. Qed.

(** A save leaves the history alone, sends nothing, and either writes row 1
    or throws with the database as it was. *)
Lemma saveRatesToCache_outcome (w : world) (rates : value) :
  JSON_stringify rates = Some (json_image rates) ->
  same_surroundings w (snd (saveRatesToCache rates w)) /\
  requests (snd (saveRatesToCache rates w)) = requests w /\
  console (snd (saveRatesToCache rates w)) = console w /\
  readings (snd (saveRatesToCache rates w)) = S (readings w) /\
  ((fst (saveRatesToCache rates w) = Normal tt /\
    db (snd (saveRatesToCache rates w))
    = saved rates (clock w (readings w)) (db w)) \/
   (fst (saveRatesToCache rates w) = Throw SQLiteError /\
    db (snd (saveRatesToCache rates w)) = db w)).
Proof.
  intros Hj.
  destruct (disk_fails w (statements w)) eqn:H0.
  - unfold saveRatesToCache, bind, Date_now, select_rates_cache, statement.
    world_simpl. rewrite H0. cbn.
    repeat split. right. split; reflexivity.
  - destruct (disk_fails w (S (statements w))) eqn:H1.
    + unfold saveRatesToCache, bind, Date_now, select_rates_cache, statement.
      world_simpl. rewrite H0. cbn.
      destruct (find _ _);
        [unfold update_rates_cache | unfold insert_rates_cache];
        unfold statement; world_simpl; rewrite H1; cbn;
        (repeat split; right; split; reflexivity).
    + rewrite (saveRatesToCache_run w rates Hj H0 H1). cbn.
      repeat split. left. split; reflexivity.
Qed.

(** The four ways a call of [getRates] can go: the read of the cache fails,
    and so does the call; the snapshot is fresh; the provider is asked and all
    goes well; the provider is asked and the fetch or the save fails. *)
Lemma getRates_outcome (w : world) :
  same_surroundings w (snd (getRates w)) /\
  ((disk_fails w (statements w) = true /\
    fst (getRates w) = Throw SQLiteError /\
    db (snd (getRates w)) = db w /\
    requests (snd (getRates w)) = requests w) \/
   (disk_fails w (statements w) = false /\
    (exists row,
       snapshot (db w) = Some row /\
       (clock w (readings w) - rc_fetched_at row < CACHE_DURATION_MS)%Z) /\
    fst (getRates w) = Normal (degraded w) /\
    db (snd (getRates w)) = db w /\
    requests (snd (getRates w)) = requests w) \/
   (disk_fails w (statements w) = false /\
    stale_or_absent w /\
    (exists fetched now,
       fst (fetchLiveRates w) = Normal fetched /\
       fst (getRates w)
       = Normal {| rates := fetched; source := live;
                   fetchedAt := Some now; ageMinutes := Some 0%Z |} /\
       db (snd (getRates w)) = saved fetched (save_time w) (db w)) /\
    requests (snd (getRates w)) = (requests w ++ [RATES_URL])%list) \/
   (disk_fails w (statements w) = false /\
    stale_or_absent w /\
    fst (getRates w) = Normal (degraded w) /\
    db (snd (getRates w)) = db w /\
    requests (snd (getRates w)) = (requests w ++ [RATES_URL])%list)).
Proof.
  destruct (disk_fails w (statements w)) eqn:Hd.
  { remember (getRates w) as g eqn:Hg.
    unfold getRates, bind at 1 in Hg.
    rewrite (loadRatesFromCache_fails w Hd) in Hg. subst g. cbn [fst snd].
    split; [repeat split | left; repeat split]. }
  assert (Hremote :
    forall (c : option cached) (w1 : world),
      same_surroundings w w1 -> requests w1 = requests w -> db w1 = db w ->
      readings w1 = match snapshot (db w) with
                    | Some _ => S (readings w)
                    | None => readings w
                    end ->
      let handler := fun err : exn =>
        bind (console_warn "Rate fetch failed:" err)
          (fun _ => match c with
                    | Some c0 =>
                        ret {| rates := c_rates c0; source := cache;
                               fetchedAt := Some (c_fetchedAt c0);
                               ageMinutes := Some (c_ageMinutes c0) |}
                    | None =>
                        ret {| rates := FALLBACK_RATES_FROM_USD; source := fallback;
                               fetchedAt := None; ageMinutes := None |}
                    end) in
      let remote :=
        try_catch
          (bind fetchLiveRates (fun rates =>
             bind (saveRatesToCache rates) (fun _ =>
               bind Date_now (fun now =>
                 ret {| rates := rates; source := live;
                        fetchedAt := Some now; ageMinutes := Some 0%Z |}))))
          handler in
      same_surroundings w (snd (remote w1)) /\
      requests (snd (remote w1)) = (requests w ++ [RATES_URL])%list /\
      ((exists fetched now,
          fst (fetchLiveRates w) = Normal fetched /\
          fst (remote w1)
          = Normal {| rates := fetched; source := live;
                      fetchedAt := Some now; ageMinutes := Some 0%Z |} /\
          db (snd (remote w1)) = saved fetched (save_time w) (db w)) \/
       (fst (remote w1)
        = Normal match c with
                 | Some c0 =>
                     {| rates := c_rates c0; source := cache;
                        fetchedAt := Some (c_fetchedAt c0);
                        ageMinutes := Some (c_ageMinutes c0) |}
                 | None =>
                     {| rates := FALLBACK_RATES_FROM_USD; source := fallback;
                        fetchedAt := None; ageMinutes := None |}
                 end /\
        db (snd (remote w1)) = db w))).
  { intros c w1 (Hc & Hp & Hf) Hreq Hdb Hread handler remote.
    subst remote handler.
    remember (try_catch _ _ w1) as g eqn:Hg.
    unfold try_catch, bind at 1 in Hg.
    rewrite fetchLiveRates_run in Hg.
    rewrite (fetchLiveRates_run w). cbn [fst].
    rewrite Hp, Hreq in Hg.
    destruct (live_rates (provider w (List.length (requests w)))) as [fetched | e] eqn:Hl.
    - unfold bind at 1 in Hg.
      pose proof (saveRatesToCache_outcome
                    (with_requests (requests w ++ [RATES_URL]) w1) fetched
                    (live_rates_object _ _ Hl)) as Hsave.
      destruct (saveRatesToCache fetched
                  (with_requests (requests w ++ [RATES_URL]) w1)) as [r w3].
      cbn [fst snd] in Hsave.
      destruct Hsave as ((Hc3 & Hp3 & Hf3) & Hreq3 & _ & _ & Hsave).
      world_simpl in Hc3. world_simpl in Hp3. world_simpl in Hf3.
      world_simpl in Hreq3. world_simpl in Hsave.
      destruct Hsave as [(-> & Hdb3) | (-> & Hdb3)].
      + cbn in Hg. subst g. cbn [fst snd]. split; [ | split].
        * repeat split; world_simpl; congruence.
        * exact Hreq3.
        * left. exists fetched, (clock w3 (readings w3)).
          split; [reflexivity | split; [reflexivity | ]].
          world_simpl. rewrite Hdb3. unfold save_time.
          rewrite Hc, Hread, Hdb. reflexivity.
      + cbn in Hg. split; [ | split].
        * subst g. destruct c; cbn; repeat split; world_simpl; congruence.
        * subst g. destruct c; exact Hreq3.
        * right. subst g. destruct c; cbn; (split; [reflexivity | congruence]).
    - cbn in Hg. split; [ | split].
      + subst g. destruct c; cbn; repeat split; world_simpl; assumption.
      + subst g. destruct c; reflexivity.
      + right. subst g. destruct c; cbn; (split; [reflexivity | assumption]). }
  remember (getRates w) as g eqn:Hg.
  unfold getRates, bind at 1 in Hg.
  destruct (snapshot (db w)) as [row | ] eqn:Hs.
  - rewrite (loadRatesFromCache_some w row Hs Hd) in Hg.
    cbn [isFresh loaded] in Hg.
    destruct (clock w (readings w) - rc_fetched_at row <? CACHE_DURATION_MS)%Z eqn:Hfresh.
    + cbn in Hg. subst g. cbn [fst snd]. split; [repeat split | ].
      right; left. split; [reflexivity | ].
      split; [exists row; split; [reflexivity | now apply Z.ltb_lt] | ].
      unfold degraded. rewrite Hs. repeat split.
    + specialize (Hremote (Some (loaded row (clock w (readings w))))
                    (with_readings (S (readings w)) (with_statements (S (statements w)) w))).
      cbv beta iota zeta in Hremote, Hg. rewrite <- Hg in Hremote.
      destruct Hremote as (Hsur & Hreq & Hres);
        [repeat split | reflexivity | reflexivity | reflexivity | ].
      split; [exact Hsur | ].
      assert (Hstale : stale_or_absent w).
      { unfold stale_or_absent. rewrite Hs. now apply Z.ltb_ge. }
      destruct Hres as [(fetched & now & Hf & Hr & Hdb) | (Hr & Hdb)].
      * right; right; left. split; [reflexivity | split; [exact Hstale | ]].
        split; [ | exact Hreq]. exists fetched, now. repeat split; assumption.
      * right; right; right. split; [reflexivity | split; [exact Hstale | ]].
        unfold degraded. rewrite Hs. repeat split; assumption.
  - rewrite (loadRatesFromCache_none w Hs Hd) in Hg.
    specialize (Hremote None (with_statements (S (statements w)) w)).
    cbv beta iota zeta in Hremote, Hg. rewrite <- Hg in Hremote.
    destruct Hremote as (Hsur & Hreq & Hres);
      [repeat split | reflexivity | reflexivity | reflexivity | ].
    split; [exact Hsur | ].
    assert (Hstale : stale_or_absent w).
    { unfold stale_or_absent. now rewrite Hs. }
    destruct Hres as [(fetched & now & Hf & Hr & Hdb) | (Hr & Hdb)].
    * right; right; left. split; [reflexivity | split; [exact Hstale | ]].
      split; [ | exact Hreq]. exists fetched, now. repeat split; assumption.
    * right; right; right. split; [reflexivity | split; [exact Hstale | ]].
      unfold degraded. rewrite Hs. repeat split; assumption.
Qed.

(** Saving makes [rates] the snapshot. *)
Lemma snapshot_saved (rates : value) (t : time) (d : database) :
  snapshot (saved rates t d) = Some (snapshot_row rates t).
Proof.
  unfold saved, snapshot at 1. cbn [rates_cache].
  destruct (snapshot d) as [old | ] eqn:Hs; unfold snapshot in Hs.
  - now apply (row1_overwritten _ _ old).
  - now apply row1_appended.
Qed.

(** ** [getRates] as its callers see it *)

(** X1. Once the cache has been read, [getRates] cannot fail: whatever the
    provider replies and whatever the later statements do, it resolves to a
    result. *)
Theorem getRates_always_resolves (w : world) :
  disk_fails w (statements w) = false ->
  exists r, fst (getRates w) = Normal r.
Proof.
  intros Hd.
  destruct (getRates_outcome w) as (_ & [H | [H | [H | H]]]).
  - destruct H as (Hd' & _). congruence.
  - destruct H as (_ & _ & Hr & _). eauto.
  - destruct H as (_ & _ & (fetched & now & _ & Hr & _) & _). eauto.
  - destruct H as (_ & _ & Hr & _). eauto.
Qed.

(** X2. A call of [getRates] sends at most one request, to the provider's
    address; an answer from the fresh cache, or a failed read, sends none. *)
Theorem getRates_sends_at_most_one_request (w : world) :
  requests (snd (getRates w)) = requests w \/
  requests (snd (getRates w)) = (requests w ++ [RATES_URL])%list.
Proof.
  destruct (getRates_outcome w) as (_ & [H | [H | [H | H]]]).
  - left. apply H.
  - left. apply H.
  - right. apply H.
  - right. apply H.
Qed.

(** X3. When the read of the cache fails, so does [getRates]: it throws the
    storage error to its caller, having asked the provider nothing and
    written nothing. *)
Theorem getRates_rejects_when_read_fails (w : world) :
  disk_fails w (statements w) = true ->
  fst (getRates w) = Throw SQLiteError /\
  requests (snd (getRates w)) = requests w /\
  db (snd (getRates w)) = db w.
Proof.
  intros Hd.
  destruct (getRates_outcome w) as (_ & [H | [H | [H | H]]]);
    destruct H as (Hd' & H); try congruence.
  destruct H as (Hr & Hdb & Hreq). repeat split; assumption.
Qed.

(** X4. The provenance tells the truth.  [live]: the rates returned are what
    the store now holds as its snapshot.  [cache]: they are the rates of the
    snapshot the store held, and holds still.  [fallback]: the store held no
    snapshot, holds none, and the rates are the built-in table. *)
Theorem getRates_provenance (w : world) (r : resolved) :
  fst (getRates w) = Normal r ->
  match source r with
  | live =>
      exists row, snapshot (db (snd (getRates w))) = Some row /\
                  rc_rates row = json_image (rates r) /\
                  rc_base row = "USD"
  | cache =>
      exists row, snapshot (db w) = Some row /\
                  rates r = rc_rates row /\
                  fetchedAt r = Some (rc_fetched_at row) /\
                  db (snd (getRates w)) = db w
  | fallback =>
      snapshot (db w) = None /\
      rates r = FALLBACK_RATES_FROM_USD /\
      db (snd (getRates w)) = db w
  end.
Proof.
  intros Hr.
  assert (Hdeg : fst (getRates w) = Normal (degraded w) ->
                 db (snd (getRates w)) = db w ->
                 match source r with
                 | live =>
                     exists row, snapshot (db (snd (getRates w))) = Some row /\
                                 rc_rates row = json_image (rates r) /\
                                 rc_base row = "USD"
                 | cache =>
                     exists row, snapshot (db w) = Some row /\
                                 rates r = rc_rates row /\
                                 fetchedAt r = Some (rc_fetched_at row) /\
                                 db (snd (getRates w)) = db w
                 | fallback =>
                     snapshot (db w) = None /\
                     rates r = FALLBACK_RATES_FROM_USD /\
                     db (snd (getRates w)) = db w
                 end).
  { intros Hg Hdb. rewrite Hr in Hg. injection Hg as ->.
    unfold degraded. destruct (snapshot (db w)) as [row | ]; cbn.
    - exists row. repeat split; assumption.
    - repeat split; assumption. }
  destruct (getRates_outcome w) as (_ & [H | [H | [H | H]]]).
  - destruct H as (_ & Hthrow & _). congruence.
  - destruct H as (_ & _ & Hg & Hdb & _). now apply Hdeg.
  - destruct H as (_ & _ & (fetched & now & _ & Hg & Hdb) & _).
    rewrite Hr in Hg. injection Hg as ->. cbn.
    exists (snapshot_row fetched (save_time w)).
    rewrite Hdb. split; [apply snapshot_saved | split; reflexivity].
  - destruct H as (_ & _ & Hg & Hdb & _). now apply Hdeg.
Qed.

(** X5. [getRates] never touches the conversion history, nor the counter of
    its ids. *)
Theorem getRates_leaves_history (w : world) :
  conversion_history (db (snd (getRates w))) = conversion_history (db w) /\
  history_seq (db (snd (getRates w))) = history_seq (db w).
Proof.
  destruct (getRates_outcome w) as (_ & [H | [H | [H | H]]]).
  - destruct H as (_ & _ & -> & _). split; reflexivity.
  - destruct H as (_ & _ & _ & -> & _). split; reflexivity.
  - destruct H as (_ & _ & (fetched & now & _ & _ & ->) & _). split; reflexivity.
  - destruct H as (_ & _ & _ & -> & _). split; reflexivity.
Qed.

Lemma single_snapshot_saved (rates : value) (t : time) (d : database) :
  single_snapshot d -> single_snapshot (saved rates t d).
Proof.
  intros [Hnil | (row & Hone & Hid)]; right; exists (snapshot_row rates t);
    unfold saved, snapshot; cbn [rates_cache].
  - rewrite Hnil. cbn. split; reflexivity.
  - rewrite Hone. cbn. rewrite Hid. cbn. split; reflexivity.
Qed.

(** X6. The store never holds more than one snapshot: a rate cache that is
    empty, or made of the single row of id 1, is so still after [getRates]. *)
Theorem getRates_keeps_single_snapshot (w : world) :
  single_snapshot (db w) -> single_snapshot (db (snd (getRates w))).
Proof.
  intros Hone.
  destruct (getRates_outcome w) as (_ & [H | [H | [H | H]]]).
  - destruct H as (_ & _ & -> & _). exact Hone.
  - destruct H as (_ & _ & _ & -> & _). exact Hone.
  - destruct H as (_ & _ & (fetched & now & _ & _ & ->) & _).
    now apply single_snapshot_saved.
  - destruct H as (_ & _ & _ & -> & _). exact Hone.
Qed.

(** X7. What is saved is what is loaded: after a save that succeeds, the next
    load returns the saved rates (as JSON keeps them), stamped with the time
    of the save and aged from it. *)
Theorem saveRatesToCache_then_load (w : world) (rates : value) :
  rates <> VUndefined ->
  fst (saveRatesToCache rates w) = Normal tt ->
  disk_fails (snd (saveRatesToCache rates w))
    (statements (snd (saveRatesToCache rates w))) = false ->
  fst (loadRatesFromCache (snd (saveRatesToCache rates w)))
  = Normal (Some {| c_rates := json_image rates;
                    isFresh := (clock w (S (readings w)) - clock w (readings w)
                                <? CACHE_DURATION_MS)%Z;
                    c_fetchedAt := clock w (readings w);
                    c_ageMinutes := ((clock w (S (readings w)) - clock w (readings w))
                                     / 60000)%Z |}).
Proof.
  intros Hu Hok Hd.
  assert (Hj : JSON_stringify rates = Some (json_image rates))
    by (destruct rates; try reflexivity; contradiction).
  destruct (saveRatesToCache_outcome w rates Hj)
    as ((Hc & _ & _) & _ & _ & Hread & [(_ & Hdb) | (Hthrow & _)]);
    [ | congruence].
  rewrite (loadRatesFromCache_some _ (snapshot_row rates (clock w (readings w)))).
  - cbn [fst]. unfold loaded. cbn [snapshot_row rc_rates rc_fetched_at].
    now rewrite Hc, Hread.
  - rewrite Hdb. apply snapshot_saved.
  - exact Hd.
Qed.

(** A [live] answer leaves the database with the answer saved. *)
Lemma live_answer_is_saved (w : world) (r : resolved) :
  fst (getRates w) = Normal r ->
  source r = live ->
  db (snd (getRates w)) = saved (rates r) (save_time w) (db w).
Proof.
  intros Hr Hlive.
  destruct (getRates_outcome w) as (_ & [H | [H | [H | H]]]).
  - destruct H as (_ & Hthrow & _). congruence.
  - destruct H as (_ & _ & Hg & _). rewrite Hr in Hg. injection Hg as ->.
    unfold degraded in Hlive. destruct (snapshot (db w)); discriminate Hlive.
  - destruct H as (_ & _ & (fetched & now & _ & Hg & Hdb) & _).
    rewrite Hr in Hg. injection Hg as ->. exact Hdb.
  - destruct H as (_ & _ & Hg & _). rewrite Hr in Hg. injection Hg as ->.
    unfold degraded in Hlive. destruct (snapshot (db w)); discriminate Hlive.
Qed.

(** X8. After a [live] answer, the next call within the hour of the save is
    served from the cache: it returns the rates just saved (as JSON keeps
    them) as [cache], with the time of the save, and asks the provider
    nothing. *)
Theorem getRates_twice (w : world) (r : resolved) :
  fst (getRates w) = Normal r ->
  source r = live ->
  disk_fails (snd (getRates w)) (statements (snd (getRates w))) = false ->
  (clock (snd (getRates w)) (readings (snd (getRates w))) - save_time w
   < CACHE_DURATION_MS)%Z ->
  fst (getRates (snd (getRates w)))
  = Normal {| rates := json_image (rates r); source := cache;
              fetchedAt := Some (save_time w);
              ageMinutes :=
                Some ((clock (snd (getRates w)) (readings (snd (getRates w)))
                       - save_time w) / 60000)%Z |} /\
  requests (snd (getRates (snd (getRates w)))) = requests (snd (getRates w)) /\
  db (snd (getRates (snd (getRates w)))) = db (snd (getRates w)).
Proof.
  intros Hr Hlive Hd Hfresh.
  pose proof (live_answer_is_saved w r Hr Hlive) as Hdb.
  remember (snd (getRates w)) as w1 eqn:Hw1.
  assert (Hs : snapshot (db w1) = Some (snapshot_row (rates r) (save_time w)))
    by (rewrite Hdb; apply snapshot_saved).
  destruct (getRates_outcome w1) as (_ & [H | [H | [H | H]]]).
  - destruct H as (Hd' & _). congruence.
  - destruct H as (_ & _ & Hg & Hdb1 & Hreq).
    unfold degraded in Hg. rewrite Hs in Hg.
    cbn [snapshot_row rc_fetched_at rc_rates] in Hg.
    repeat split; assumption.
  - destruct H as (_ & Hstale & _). unfold stale_or_absent in Hstale.
    rewrite Hs in Hstale. cbn [snapshot_row rc_fetched_at] in Hstale. lia.
  - destruct H as (_ & Hstale & _). unfold stale_or_absent in Hstale.
    rewrite Hs in Hstale. cbn [snapshot_row rc_fetched_at] in Hstale. lia.
Qed.

(** ** The conversion history *)

Lemma insert_desc_In (r x : history_row) (l : list history_row) :
  In x (insert_desc r l) <-> x = r \/ In x l.
Proof.
  induction l as [ | y l IH]; cbn.
  - intuition congruence.
  - destruct (h_converted_at y <? h_converted_at r)%Z; cbn; [intuition congruence | ].
    rewrite IH. intuition congruence.
Qed.

Lemma insert_desc_length (r : history_row) (l : list history_row) :
  List.length (insert_desc r l) = S (List.length l).
Proof.
  induction l as [ | y l IH]; cbn; [reflexivity | ].
  destruct (h_converted_at y <? h_converted_at r)%Z; cbn; [reflexivity | ].
  now rewrite IH.
Qed.

Lemma insert_desc_newest_first (r : history_row) (l : list history_row) :
  newest_first l -> newest_first (insert_desc r l).
Proof.
  induction l as [ | y l IH]; intros Hl.
  - cbn. split; exact I.
  - cbn [insert_desc].
    destruct (h_converted_at y <? h_converted_at r)%Z eqn:Hlt.
    + apply Z.ltb_lt in Hlt. cbn [newest_first].
      split; [lia | exact Hl].
    + apply Z.ltb_ge in Hlt.
      cbn [newest_first] in Hl. destruct Hl as (Hhead & Htail).
      specialize (IH Htail).
      cbn [newest_first]. split; [ | exact IH].
      destruct l as [ | z l]; cbn [insert_desc]; [exact Hlt | ].
      destruct (h_converted_at z <? h_converted_at r)%Z; assumption.
Qed.

(** Sorting the rows keeps them all, adds none, and puts the newest first. *)
Lemma order_desc_spec (l : list history_row) :
  newest_first (order_desc l) /\
  List.length (order_desc l) = List.length l /\
  (forall x, In x (order_desc l) <-> In x l).
Proof.
  unfold order_desc.
  assert (H : forall acc,
             newest_first acc ->
             newest_first (fold_left (fun a r => insert_desc r a) l acc) /\
             List.length (fold_left (fun a r => insert_desc r a) l acc)
             = (List.length acc + List.length l)%nat /\
             (forall x, In x (fold_left (fun a r => insert_desc r a) l acc)
                        <-> In x acc \/ In x l)).
  { induction l as [ | r l IH]; intros acc Hacc; cbn [fold_left].
    - split; [exact Hacc | split; [cbn; lia | cbn; intuition]].
    - destruct (IH (insert_desc r acc) (insert_desc_newest_first r acc Hacc))
        as (Hn & Hlen & Hin).
      split; [exact Hn | split].
      + rewrite Hlen, insert_desc_length. cbn. lia.
      + intros x. rewrite Hin, insert_desc_In. cbn. intuition congruence. }
  destruct (H [] I) as (Hn & Hlen & Hin).
  split; [exact Hn | split; [exact Hlen | ]].
  intros x. rewrite Hin. cbn. intuition.
Qed.

Lemma firstn_incl {A : Type} (n : nat) (l : list A) (x : A) :
  In x (firstn n l) -> In x l.
Proof.
  revert l. induction n as [ | n IH]; intros l; [intros [] | ].
  destruct l as [ | y l]; [intros [] | ].
  cbn. intros [H | H]; [now left | right; now apply IH].
Qed.

Lemma newest_first_firstn (n : nat) (l : list history_row) :
  newest_first l -> newest_first (firstn n l).
Proof.
  revert l. induction n as [ | n IH]; intros l Hl; [exact I | ].
  destruct l as [ | x l]; [exact I | ].
  cbn [firstn]. cbn [newest_first] in Hl. destruct Hl as (Hhead & Htail).
  cbn [newest_first]. split; [ | now apply IH].
  destruct l as [ | y l]; [destruct n; exact I | ].
  destruct n; [exact I | exact Hhead].
Qed.

(** X9. [getHistory] never throws and never writes.  What it returns are rows
    of the history, the most recent first, and no more of them than the limit
    (when the limit is not negative). *)
Theorem getHistory_newest_first (w : world) (limit : Z) :
  exists rows,
    fst (getHistory limit w) = Normal rows /\
    db (snd (getHistory limit w)) = db w /\
    newest_first rows /\
    (forall r, In r rows -> In r (conversion_history (db w))) /\
    ((0 <= limit)%Z -> (List.length rows <= Z.to_nat limit)%nat).
Proof.
  destruct (order_desc_spec (conversion_history (db w))) as (Hn & _ & Hin).
  unfold getHistory, try_catch, statement, select_history.
  destruct (disk_fails w (statements w)); cbn.
  { exists []. repeat split; try exact I; cbn; [tauto | lia]. }
  destruct (is_limit limit); cbn.
  2: { exists []. repeat split; try exact I; cbn; [tauto | lia]. }
  - eexists. split; [reflexivity | split; [reflexivity | ]].
    destruct (limit <? 0)%Z eqn:Hneg.
    + split; [exact Hn | split; [intros r; apply Hin | ]].
      apply Z.ltb_lt in Hneg. lia.
    + split; [now apply newest_first_firstn | split].
      * intros r Hr. apply Hin. eapply firstn_incl. exact Hr.
      * intros _. apply firstn_le_length.
Qed.

Lemma getHistory_db (w : world) (limit : Z) :
  db (snd (getHistory limit w)) = db w.
Proof.
  unfold getHistory, try_catch, statement, select_history.
  destruct (disk_fails w (statements w)); [reflexivity | ].
  destruct (is_limit limit); reflexivity.
Qed.

(** The row [saveToHistory] adds. *)
Lemma saveToHistory_run (w : world) (from to : string) (amount result rate : float) :
  saveToHistory from to amount result rate w
  = if (disk_fails w (statements w)
        || (is_nan amount || is_nan result || is_nan rate))%bool
    then (Normal tt,
          with_console (console w ++ [Warn "History save failed:" SQLiteError])
            (with_statements (S (statements w)) (with_readings (S (readings w)) w)))
    else (Normal tt,
          with_db
            {| rates_cache := rates_cache (db w);
               conversion_history :=
                 (conversion_history (db w)
                  ++ [{| h_id := history_seq (db w) + 1;
                         h_from_currency := from; h_to_currency := to;
                         h_amount := REAL_column amount;
                         h_result := REAL_column result;
                         h_rate := REAL_column rate;
                         h_converted_at := clock w (readings w) / 1000 |}])%list;
               history_seq := (history_seq (db w) + 1)%Z |}
            (with_statements (S (statements w)) (with_readings (S (readings w)) w))).
Proof.
  unfold saveToHistory, try_catch, bind, Date_now, statement, insert_history.
  world_simpl.
  destruct (disk_fails w (statements w)); cbn [orb]; [reflexivity | ].
  destruct (is_nan amount || is_nan result || is_nan rate)%bool; reflexivity.
Qed.

(** X10. [saveToHistory] is best effort: it never throws.  When the statement
    fails, or a number to store is NaN (which the columns refuse), the
    database is as it was and a warning is logged; otherwise exactly one row
    is added at the end, under the next id, holding the numbers as the REAL
    columns keep them (a negative zero as zero), and the rate cache is
    untouched. *)
Theorem saveToHistory_best_effort (w : world) (from to : string)
    (amount result rate : float) :
  fst (saveToHistory from to amount result rate w) = Normal tt /\
  rates_cache (db (snd (saveToHistory from to amount result rate w)))
  = rates_cache (db w) /\
  if (disk_fails w (statements w)
      || (is_nan amount || is_nan result || is_nan rate))%bool
  then
    db (snd (saveToHistory from to amount result rate w)) = db w /\
    console (snd (saveToHistory from to amount result rate w))
    = (console w ++ [Warn "History save failed:" SQLiteError])%list
  else
    conversion_history (db (snd (saveToHistory from to amount result rate w)))
    = (conversion_history (db w)
       ++ [{| h_id := history_seq (db w) + 1;
              h_from_currency := from; h_to_currency := to;
              h_amount := REAL_column amount;
              h_result := REAL_column result;
              h_rate := REAL_column rate;
              h_converted_at := clock w (readings w) / 1000 |}])%list /\
    history_seq (db (snd (saveToHistory from to amount result rate w)))
    = (history_seq (db w) + 1)%Z /\
    console (snd (saveToHistory from to amount result rate w)) = console w.
Proof.
  rewrite saveToHistory_run.
  destruct (disk_fails w (statements w)
            || (is_nan amount || is_nan result || is_nan rate))%bool;
    cbn; repeat split.
Qed.

Lemma insert_desc_newest (r : history_row) (l : list history_row) :
  (forall x, In x l -> (h_converted_at x < h_converted_at r)%Z) ->
  insert_desc r l = r :: l.
Proof.
  destruct l as [ | y l]; intros H; cbn; [reflexivity | ].
  assert (Hy : (h_converted_at y <? h_converted_at r)%Z = true)
    by (apply Z.ltb_lt, H; now left).
  now rewrite Hy.
Qed.

Lemma order_desc_app_one (l : list history_row) (r : history_row) :
  order_desc (l ++ [r]) = insert_desc r (order_desc l).
Proof.
  unfold order_desc. now rewrite fold_left_app.
Qed.

(** X11. What is saved is what is listed first: when a conversion is saved
    in a second later than every row of the history, [getHistory(1)] then
    returns exactly the row just saved, its numbers as the REAL columns keep
    them (a negative zero as zero). *)
Theorem saveToHistory_then_getHistory (w : world) (from to : string)
    (amount result rate : float) :
  disk_fails w (statements w) = false ->
  disk_fails w (S (statements w)) = false ->
  (is_nan amount || is_nan result || is_nan rate)%bool = false ->
  (forall x, In x (conversion_history (db w)) ->
             (h_converted_at x < clock w (readings w) / 1000)%Z) ->
  fst (getHistory 1 (snd (saveToHistory from to amount result rate w)))
  = Normal [{| h_id := history_seq (db w) + 1;
               h_from_currency := from; h_to_currency := to;
               h_amount := REAL_column amount;
               h_result := REAL_column result;
               h_rate := REAL_column rate;
               h_converted_at := clock w (readings w) / 1000 |}].
Proof.
  intros Hd0 Hd1 Hnum Hnew.
  rewrite saveToHistory_run, Hd0, Hnum. cbn [orb snd].
  unfold getHistory, try_catch, statement, select_history. world_simpl.
  change (is_limit 1) with true.
  rewrite Hd1. cbn [fst conversion_history Z.ltb Z.compare Z.to_nat Pos.to_nat
                    Pos.iter_op Nat.add].
  rewrite order_desc_app_one, insert_desc_newest.
  - reflexivity.
  - intros x Hx.
    apply (proj1 (proj2 (proj2 (order_desc_spec _)) x)) in Hx.
    cbn [h_converted_at]. now apply Hnew.
Qed.

(** X12. After [clearHistory] has returned, the history is empty and
    [getHistory] returns the empty sequence, whatever the limit; the rate
    cache and the counter of ids are as they were. *)
Theorem clearHistory_then_getHistory (w : world) (limit : Z) :
  fst (clearHistory w) = Normal tt ->
  conversion_history (db (snd (clearHistory w))) = [] /\
  rates_cache (db (snd (clearHistory w))) = rates_cache (db w) /\
  history_seq (db (snd (clearHistory w))) = history_seq (db w) /\
  fst (getHistory limit (snd (clearHistory w))) = Normal [].
Proof.
  unfold clearHistory, statement, delete_history.
  destruct (disk_fails w (statements w)); cbn; [intros H; discriminate H | ].
  intros _. repeat split.
  unfold getHistory, try_catch, statement, select_history. world_simpl.
  destruct (disk_fails w (S (statements w))); cbn; [reflexivity | ].
  destruct (is_limit limit); cbn; [ | reflexivity].
  destruct (limit <? 0)%Z; [reflexivity | ].
  now destruct (Z.to_nat limit).
Qed.

Lemma ids_below_weaken (b b' : Z) (rows : list history_row) :
  (b <= b')%Z -> ids_below b rows -> ids_below b' rows.
Proof.
  intros Hb. induction rows as [ | r rows IH]; cbn; [tauto | ].
  intros (H1 & H2). split; [lia | now apply IH].
Qed.

Lemma ids_below_app (b : Z) (rows : list history_row) (r : history_row) :
  ids_below b rows -> (h_id r <= b)%Z -> ids_below b (rows ++ [r]).
Proof.
  induction rows as [ | x rows IH]; cbn; [tauto | ].
  intros (H1 & H2) Hr. split; [exact H1 | now apply IH].
Qed.

Lemma ids_increasing_app (b : Z) (rows : list history_row) (r : history_row) :
  ids_below b rows -> ids_increasing rows -> (b < h_id r)%Z ->
  ids_increasing (rows ++ [r]).
Proof.
  induction rows as [ | x rows IH]; intros Hb Hi Hr.
  - cbn. split; exact I.
  - cbn [ids_below] in Hb. destruct Hb as (Hx & Hb).
    cbn [ids_increasing] in Hi. destruct Hi as (Hhead & Hi).
    cbn [app ids_increasing]. split; [ | now apply IH].
    destruct rows as [ | y rows]; cbn [app]; [lia | exact Hhead].
Qed.

(** X13. Ids are never given twice, not even across a clearing: if every id
    of the history is at most the counter and the rows are in the order of
    their ids, the same holds after [saveToHistory], after [clearHistory],
    after [getHistory] and after [getRates]; and the counter never goes
    down. *)
Theorem history_ids_stay_sound (w : world) (from to : string)
    (amount result rate : float) (limit : Z) :
  history_ids_sound (db w) ->
  (history_ids_sound (db (snd (saveToHistory from to amount result rate w))) /\
   (history_seq (db w)
    <= history_seq (db (snd (saveToHistory from to amount result rate w))))%Z) /\
  (history_ids_sound (db (snd (clearHistory w))) /\
   history_seq (db (snd (clearHistory w))) = history_seq (db w)) /\
  history_ids_sound (db (snd (getHistory limit w))) /\
  history_ids_sound (db (snd (getRates w))).
Proof.
  intros (Hb & Hi). split; [ | split; [ | split]].
  - rewrite saveToHistory_run.
    destruct (disk_fails w (statements w)
              || (is_nan amount || is_nan result || is_nan rate))%bool; cbn.
    + split; [split; assumption | lia].
    + split; [ | lia]. split; cbn.
      * apply ids_below_app; [ | cbn; lia].
        apply (ids_below_weaken (history_seq (db w))); [lia | exact Hb].
      * apply (ids_increasing_app (history_seq (db w))); [exact Hb | exact Hi | cbn; lia].
  - unfold clearHistory, statement, delete_history.
    destruct (disk_fails w (statements w)); cbn.
    + split; [split; assumption | reflexivity].
    + split; [split; exact I | reflexivity].
  - rewrite getHistory_db. split; assumption.
  - destruct (getRates_outcome w) as (_ & [H | [H | [H | H]]]).
    + destruct H as (_ & _ & -> & _). split; assumption.
    + destruct H as (_ & _ & _ & -> & _). split; assumption.
    + destruct H as (_ & _ & (fetched & now & _ & _ & ->) & _). split; assumption.
    + destruct H as (_ & _ & _ & -> & _). split; assumption.
Qed.

(* ===================================================================== *)
(** * Properties of the screens *)
(* ===================================================================== *)

Import Screen ScreenVocabulary.

(** ** Characters *)

Lemma is_point_eq (c : ascii) : is_point c = true -> c = "."%char.
Proof. unfold is_point. apply Ascii.eqb_eq. Qed.

Lemma digit_not_point (c : ascii) : is_digit c = true -> is_point c = false.
Proof.
  destruct c as [[] [] [] [] [] [] [] []]; cbn; intros H;
    (reflexivity || discriminate H).
Qed.

Lemma digit_not_comma (c : ascii) : is_digit c = true -> Ascii.eqb c "," = false.
Proof.
  destruct c as [[] [] [] [] [] [] [] []]; cbn; intros H;
    (reflexivity || discriminate H).
Qed.

Lemma digit_is_word (c : ascii) : is_digit c = true -> is_word c = true.
Proof. unfold is_word. now intros ->. Qed.

Lemma numeric_not_digit (c : ascii) :
  numeric_char c = true -> is_digit c = false -> c = "."%char.
Proof.
  unfold numeric_char. intros H Hd. rewrite Hd in H. now apply is_point_eq.
Qed.

Lemma digits_numeric (s : list ascii) :
  forallb is_digit s = true -> forallb numeric_char s = true.
Proof.
  induction s as [ | c s IH]; cbn; [reflexivity | ].
  intros H. apply andb_true_iff in H. destruct H as (Hc & Hs).
  unfold numeric_char at 1. rewrite Hc. now apply IH.
Qed.

Lemma handleAmountChange_render (text : string) :
  handleAmountChange text
  = (string_of_list_ascii (fst (render (strip_non_numeric (list_ascii_of_string text)))),
     string_of_list_ascii (snd (render (strip_non_numeric (list_ascii_of_string text))))).
Proof. reflexivity. Qed.

Lemma strip_non_numeric_numeric (l : list ascii) :
  forallb numeric_char (strip_non_numeric l) = true.
Proof.
  unfold strip_non_numeric. induction l as [ | c l IH]; cbn; [reflexivity | ].
  destruct (is_digit c || is_point c)%bool eqn:Hc; [ | exact IH].
  cbn. unfold numeric_char. now rewrite Hc.
Qed.

Lemma strip_non_numeric_id (l : list ascii) :
  forallb numeric_char l = true -> strip_non_numeric l = l.
Proof.
  unfold strip_non_numeric. induction l as [ | c l IH]; cbn; [reflexivity | ].
  intros H. apply andb_true_iff in H. destruct H as (Hc & Hl).
  unfold numeric_char in Hc. rewrite Hc. now rewrite IH.
Qed.

(** ** Splitting at the points *)

Lemma split_points_digits (s : list ascii) :
  forallb is_digit s = true -> split_points s = [s].
Proof.
  induction s as [ | c s IH]; cbn; [reflexivity | ].
  intros H. apply andb_true_iff in H. destruct H as (Hc & Hs).
  now rewrite (digit_not_point c Hc), (IH Hs).
Qed.

Lemma split_points_at_point (a s : list ascii) :
  forallb is_digit a = true ->
  split_points (a ++ "."%char :: s) = a :: split_points s.
Proof.
  induction a as [ | c a IH]; cbn; [reflexivity | ].
  intros H. apply andb_true_iff in H. destruct H as (Hc & Ha).
  now rewrite (digit_not_point c Hc), (IH Ha).
Qed.

Lemma split_points_one (s p : list ascii) : split_points s = [p] -> s = p.
Proof.
  revert p. induction s as [ | c s IH]; cbn; intros p H.
  - now injection H.
  - destruct (is_point c).
    + injection H as _ H. destruct s; cbn in H; [discriminate H | ].
      destruct (is_point a); [discriminate H | ].
      destruct (split_points s); discriminate H.
    + destruct (split_points s) as [ | piece pieces] eqn:Hs.
      * injection H as <-. destruct s; cbn in Hs; [discriminate Hs | ].
        destruct (is_point a); [discriminate Hs | ].
        destruct (split_points s); discriminate Hs.
      * injection H as <- ->. now rewrite (IH piece eq_refl).
Qed.

(** A text of digits and points is digits, or digits, a point and a text of
    digits and points. *)
Lemma numeric_cases (s : list ascii) :
  forallb numeric_char s = true ->
  forallb is_digit s = true \/
  exists a s', s = (a ++ "."%char :: s')%list /\
               forallb is_digit a = true /\ forallb numeric_char s' = true.
Proof.
  induction s as [ | c s IH]; cbn; [now left | ].
  intros H. apply andb_true_iff in H. destruct H as (Hc & Hs).
  destruct (is_digit c) eqn:Hd.
  - destruct (IH Hs) as [Hall | (a & s' & -> & Ha & Hs')].
    + left. exact Hall.
    + right. exists (c :: a), s'. cbn. rewrite Hd. repeat split; assumption.
  - right. exists [], s. rewrite (numeric_not_digit c Hc Hd).
    repeat split. exact Hs.
Qed.

Lemma digits_of_digits (s : list ascii) :
  forallb numeric_char s = true -> forallb is_digit (digits_of s) = true.
Proof.
  unfold digits_of. induction s as [ | c s IH]; cbn; [reflexivity | ].
  intros H. apply andb_true_iff in H. destruct H as (Hc & Hs).
  specialize (IH Hs).
  destruct (is_point c) eqn:Hp; cbn; [exact IH | ].
  assert (Hd : is_digit c = true).
  { unfold numeric_char in Hc. rewrite Hp in Hc. now rewrite orb_false_r in Hc. }
  destruct (split_points s) as [ | piece pieces]; cbn in *; now rewrite Hd.
Qed.

Lemma digits_of_id (s : list ascii) :
  forallb is_digit s = true -> digits_of s = s.
Proof.
  intros H. unfold digits_of. rewrite (split_points_digits s H). cbn.
  apply app_nil_r.
Qed.

(** What [handleAmountChange] makes of a text of digits and points: digits
    stay; of digits, a point and more, the points after the first go. *)
Lemma render_digits (s : list ascii) :
  forallb is_digit s = true -> render s = (s, insert_commas None s).
Proof.
  intros H. unfold render. rewrite (split_points_digits s H). cbn.
  now rewrite (split_points_digits s H).
Qed.

Lemma render_point (a s : list ascii) :
  forallb is_digit a = true -> forallb numeric_char s = true ->
  render (a ++ "."%char :: s)
  = ((a ++ "."%char :: digits_of s)%list,
     (insert_commas None a ++ "."%char :: digits_of s)%list).
Proof.
  intros Ha Hs. unfold render.
  rewrite (split_points_at_point a s Ha).
  assert (Hraw : (if (2 <? List.length (a :: split_points s))%nat
                  then (hd [] (a :: split_points s) ++ ["."%char]
                        ++ List.concat (skipn 1 (a :: split_points s)))%list
                  else (a ++ "."%char :: s)%list)
                 = (a ++ "."%char :: digits_of s)%list).
  { unfold digits_of. cbn [hd skipn List.length].
    destruct (split_points s) as [ | p [ | q ps]] eqn:Hsp.
    - destruct s; cbn in Hsp; [discriminate Hsp | ].
      destruct (is_point a0); [discriminate Hsp | ].
      destruct (split_points s); discriminate Hsp.
    - cbn. rewrite (split_points_one s p Hsp). now rewrite app_nil_r.
    - reflexivity. }
  rewrite Hraw.
  rewrite (split_points_at_point a (digits_of s) Ha).
  rewrite (split_points_digits _ (digits_of_digits s Hs)).
  reflexivity.
Qed.

(** ** The commas *)

Lemma filter_insert_commas (f : ascii -> bool) (s : list ascii) :
  f ","%char = false ->
  forall prev, filter f (insert_commas prev s) = filter f s.
Proof.
  intros Hf. induction s as [ | c s IH]; intros prev; [reflexivity | ].
  cbn [insert_commas]. rewrite filter_app. cbn [filter]. rewrite IH.
  destruct (_ && _)%bool; cbn [filter app]; [now rewrite Hf | reflexivity].
Qed.

Lemma digit_run_digits (s : list ascii) :
  forallb is_digit s = true -> digit_run s = List.length s.
Proof.
  induction s as [ | c s IH]; cbn; [reflexivity | ].
  intros H. apply andb_true_iff in H. destruct H as (-> & Hs). now rewrite IH.
Qed.

Lemma mod3_succ (n : nat) :
  (S n mod 3 = match n mod 3 with
               | 0 => 1
               | 1 => 2
               | _ => 0
               end)%nat.
Proof.
  pose proof (Nat.mod_upper_bound n 3 ltac:(discriminate)) as Hlt.
  replace (S n) with (n + 1)%nat by lia.
  rewrite Nat.Div0.add_mod.
  destruct (n mod 3)%nat as [ | [ | [ | r]]]; try reflexivity. lia.
Qed.

(** After a word character, a run of digits gets its commas three by three
    from the right. *)
Lemma insert_commas_digits (s : list ascii) :
  forallb is_digit s = true ->
  forall p, is_word p = true ->
  insert_commas (Some p) s
  = match (List.length s mod 3)%nat with
    | O => triples s
    | k => (firstn k s ++ triples (skipn k s))%list
    end.
Proof.
  induction s as [ | c s IH]; intros Hs p Hp; [reflexivity | ].
  cbn [forallb] in Hs. apply andb_true_iff in Hs. destruct Hs as (Hc & Hs).
  cbn [insert_commas].
  rewrite (IH Hs c (digit_is_word c Hc)).
  assert (Hrun : digit_run (c :: s) = S (List.length s)).
  { cbn. now rewrite Hc, (digit_run_digits s Hs). }
  rewrite Hrun, Hp, (digit_is_word c Hc). cbn [Bool.eqb andb Nat.ltb Nat.leb List.length].
  rewrite mod3_succ.
  destruct (List.length s mod 3)%nat as [ | [ | [ | r]]] eqn:Hmod.
  - reflexivity.
  - reflexivity.
  - destruct s as [ | a [ | b s]]; [discriminate Hmod | discriminate Hmod | ].
    reflexivity.
  - pose proof (Nat.mod_upper_bound (List.length s) 3 ltac:(discriminate)). lia.
Qed.

(** From the start of the text, the same. *)
Lemma insert_commas_thousands (ds : list ascii) :
  forallb is_digit ds = true -> insert_commas None ds = thousands ds.
Proof.
  destruct ds as [ | c s]; intros Hs; [reflexivity | ].
  cbn [forallb] in Hs. apply andb_true_iff in Hs. destruct Hs as (Hc & Hs).
  cbn [insert_commas].
  rewrite (insert_commas_digits s Hs c (digit_is_word c Hc)).
  rewrite (digit_is_word c Hc). cbn [negb andb app].
  unfold thousands. cbn [List.length]. rewrite mod3_succ.
  destruct (List.length s mod 3)%nat as [ | [ | [ | r]]] eqn:Hmod.
  - reflexivity.
  - reflexivity.
  - destruct s as [ | a [ | b s]]; [discriminate Hmod | discriminate Hmod | ].
    reflexivity.
  - pose proof (Nat.mod_upper_bound (List.length s) 3 ltac:(discriminate)). lia.
Qed.

(** ** What the amount field keeps *)

(** The amount kept, and the amount shown, for any text stripped. *)
Lemma render_cases (cleaned : list ascii) :
  forallb numeric_char cleaned = true ->
  (forallb is_digit cleaned = true /\
   render cleaned = (cleaned, thousands cleaned)) \/
  (exists a d, forallb is_digit a = true /\ forallb is_digit d = true /\
               render cleaned
               = ((a ++ "."%char :: d)%list, (thousands a ++ "."%char :: d)%list)).
Proof.
  intros H. destruct (numeric_cases cleaned H) as [Hd | (a & s' & -> & Ha & Hs')].
  - left. split; [exact Hd | ].
    now rewrite (render_digits cleaned Hd), (insert_commas_thousands cleaned Hd).
  - right. exists a, (digits_of s').
    split; [exact Ha | split; [now apply digits_of_digits | ]].
    now rewrite (render_point a s' Ha Hs'), (insert_commas_thousands a Ha).
Qed.

Lemma count_points_digits (s : list ascii) :
  forallb is_digit s = true -> count_points s = 0%nat.
Proof.
  induction s as [ | c s IH]; cbn; [reflexivity | ].
  intros H. apply andb_true_iff in H. destruct H as (Hc & Hs).
  now rewrite (digit_not_point c Hc), (IH Hs).
Qed.

Lemma count_points_app (a b : list ascii) :
  count_points (a ++ b) = (count_points a + count_points b)%nat.
Proof.
  induction a as [ | c a IH]; cbn; [reflexivity | ]. rewrite IH. lia.
Qed.

Lemma forallb_numeric_app_point (a d : list ascii) :
  forallb is_digit a = true -> forallb is_digit d = true ->
  forallb numeric_char (a ++ "."%char :: d) = true.
Proof.
  intros Ha Hd. rewrite forallb_app. cbn.
  now rewrite (digits_numeric a Ha), (digits_numeric d Hd).
Qed.

(** X14. Whatever the text typed or pasted, the amount [handleAmountChange]
    keeps for the calculations is made of digits and of one point at most. *)
Theorem handleAmountChange_keeps_plain_amount (text : string) :
  plain_amount (list_ascii_of_string (fst (handleAmountChange text))) = true.
Proof.
  rewrite handleAmountChange_render. cbn [fst].
  rewrite list_ascii_of_string_of_list_ascii.
  destruct (render_cases _ (strip_non_numeric_numeric (list_ascii_of_string text)))
    as [(Hd & ->) | (a & d & Ha & Hd & ->)]; cbn [fst]; unfold plain_amount.
  - now rewrite (digits_numeric _ Hd), (count_points_digits _ Hd).
  - rewrite (forallb_numeric_app_point a d Ha Hd), count_points_app. cbn.
    now rewrite (count_points_digits a Ha), (count_points_digits d Hd).
Qed.

Lemma thousands_strip (f : ascii -> bool) (ds : list ascii) :
  f ","%char = false -> forallb is_digit ds = true ->
  filter f (thousands ds) = filter f ds.
Proof.
  intros Hf Hd. rewrite <- (insert_commas_thousands ds Hd).
  now apply filter_insert_commas.
Qed.

Lemma strip_commas_digits (s : list ascii) :
  forallb is_digit s = true -> strip_commas s = s.
Proof.
  unfold strip_commas. induction s as [ | c s IH]; cbn; [reflexivity | ].
  intros H. apply andb_true_iff in H. destruct H as (Hc & Hs).
  now rewrite (digit_not_comma c Hc), (IH Hs).
Qed.

(** X15. The amount shown is the amount kept, with commas and nothing else
    added: without its commas it is the amount kept; and fed back to
    [handleAmountChange], as the field does at the next keystroke, the amount
    shown gives the same two amounts again, and so does the amount kept. *)
Theorem handleAmountChange_display_round_trip (text : string) :
  strip_commas (list_ascii_of_string (snd (handleAmountChange text)))
  = list_ascii_of_string (fst (handleAmountChange text)) /\
  handleAmountChange (snd (handleAmountChange text)) = handleAmountChange text /\
  handleAmountChange (fst (handleAmountChange text)) = handleAmountChange text.
Proof.
  rewrite !(handleAmountChange_render text). cbn [fst snd].
  rewrite !handleAmountChange_render.
  rewrite !list_ascii_of_string_of_list_ascii.
  pose proof (strip_non_numeric_numeric (list_ascii_of_string text)) as Hnum.
  destruct (render_cases _ Hnum) as [(Hd & Hr) | (a & d & Ha & Hd & Hr)];
    rewrite Hr; cbn [fst snd].
  - assert (Hshown : strip_non_numeric (thousands (strip_non_numeric (list_ascii_of_string text)))
                     = strip_non_numeric (list_ascii_of_string text)).
    { unfold strip_non_numeric at 1.
      rewrite thousands_strip by (reflexivity || exact Hd).
      apply (strip_non_numeric_id _ Hnum). }
    rewrite Hshown, (strip_non_numeric_id _ Hnum), Hr. cbn [fst snd].
    split; [ | split; reflexivity].
    unfold strip_commas. rewrite thousands_strip by (reflexivity || exact Hd).
    apply (strip_commas_digits _ Hd).
  - pose proof (forallb_numeric_app_point a d Ha Hd) as Hraw.
    assert (Hshown : strip_non_numeric (thousands a ++ "."%char :: d)
                     = (a ++ "."%char :: d)%list).
    { unfold strip_non_numeric. rewrite filter_app.
      rewrite thousands_strip by (reflexivity || exact Ha).
      rewrite <- filter_app. apply (strip_non_numeric_id _ Hraw). }
    assert (Hagain : render (a ++ "."%char :: d)
                     = ((a ++ "."%char :: d)%list, (thousands a ++ "."%char :: d)%list)).
    { rewrite (render_point a d Ha (digits_numeric d Hd)).
      now rewrite (digits_of_id d Hd), (insert_commas_thousands a Ha). }
    rewrite Hshown, (strip_non_numeric_id _ Hraw), Hagain. cbn [fst snd].
    split; [ | split; reflexivity].
    unfold strip_commas. rewrite filter_app.
    rewrite thousands_strip by (reflexivity || exact Ha).
    rewrite <- filter_app. fold (strip_commas (a ++ "."%char :: d)).
    unfold strip_commas. rewrite filter_app. cbn [filter Ascii.eqb negb].
    fold (strip_commas a). fold (strip_commas d).
    now rewrite (strip_commas_digits a Ha), (strip_commas_digits d Hd).
Qed.

Lemma app_point_inj (a b x y : list ascii) :
  forallb is_digit a = true -> forallb is_digit b = true ->
  (a ++ "."%char :: x)%list = (b ++ "."%char :: y)%list -> a = b /\ x = y.
Proof.
  revert b. induction a as [ | c a IH]; intros [ | c' b] Ha Hb H; cbn in *.
  - now injection H.
  - injection H as <- _. apply andb_true_iff in Hb. destruct Hb as (Hc & _).
    discriminate Hc.
  - injection H as -> _. apply andb_true_iff in Ha. destruct Ha as (Hc & _).
    discriminate Hc.
  - injection H as <- H. apply andb_true_iff in Ha. destruct Ha as (_ & Ha).
    apply andb_true_iff in Hb. destruct Hb as (_ & Hb).
    destruct (IH b Ha Hb H) as (-> & ->). split; reflexivity.
Qed.

Lemma digits_no_point (a x : list ascii) (s : list ascii) :
  forallb is_digit s = true -> s <> (a ++ "."%char :: x)%list.
Proof.
  intros Hs ->. rewrite forallb_app in Hs. cbn in Hs.
  apply andb_true_iff in Hs. destruct Hs as (_ & Hs). discriminate Hs.
Qed.

(** X16. The amount shown groups the digits before the point in threes from
    the right and leaves what follows as it is: when the amount kept is the
    digits [ds] followed by [frac], which is empty or starts at the point, the
    amount shown is [thousands ds] followed by [frac]. *)
Theorem handleAmountChange_groups_thousands (text : string) (ds frac : list ascii) :
  list_ascii_of_string (fst (handleAmountChange text)) = (ds ++ frac)%list ->
  forallb is_digit ds = true ->
  frac = [] \/ (exists d, frac = "."%char :: d) ->
  list_ascii_of_string (snd (handleAmountChange text)) = (thousands ds ++ frac)%list.
Proof.
  rewrite handleAmountChange_render. cbn [fst snd].
  rewrite !list_ascii_of_string_of_list_ascii.
  intros Hraw Hds Hfrac.
  destruct (render_cases _ (strip_non_numeric_numeric (list_ascii_of_string text)))
    as [(Hd & Hr) | (a & d & Ha & Hd & Hr)]; rewrite Hr in Hraw |- *; cbn [fst snd] in *.
  - destruct Hfrac as [-> | (d & ->)].
    + rewrite app_nil_r in Hraw |- *. now rewrite Hraw.
    + exfalso. exact (digits_no_point ds d _ Hd Hraw).
  - destruct Hfrac as [-> | (d' & ->)].
    + rewrite app_nil_r in Hraw. exfalso.
      exact (digits_no_point a d ds Hds (eq_sym Hraw)).
    + destruct (app_point_inj a ds d d' Ha Hds Hraw) as (-> & ->). reflexivity.
Qed.

(** ** Numbers read from text are numbers *)

Section NotNaN.
Local Open Scope Z_scope.

Lemma shr_1_nonneg (mrs : shr_record) : 0 <= shr_m mrs -> 0 <= shr_m (shr_1 mrs).
Proof.
  destruct mrs as [m r s]. cbn. intros H.
  destruct m as [ | [p | p | ] | p]; cbn; lia.
Qed.

Lemma iter_shr_1_nonneg (n : positive) :
  forall mrs, 0 <= shr_m mrs -> 0 <= shr_m (iter_pos shr_1 n mrs).
Proof.
  induction n as [n IH | n IH | ]; intros mrs H; cbn.
  - apply IH, IH, shr_1_nonneg, H.
  - apply IH, IH, H.
  - apply shr_1_nonneg, H.
Qed.

Lemma shr_fexp_nonneg (m e : Z) (l : location) :
  0 <= m -> 0 <= shr_m (fst (shr_fexp prec emax m e l)).
Proof.
  intros H. unfold shr_fexp, shr.
  assert (H0 : 0 <= shr_m (shr_record_of_loc m l))
    by (destruct l as [ | [ | | ]]; exact H).
  destruct (fexp prec emax (Zdigits2 m + e) - e); cbn [fst];
    [exact H0 | now apply iter_shr_1_nonneg | exact H0].
Qed.

Lemma round_nearest_even_nonneg (m : Z) (l : location) :
  0 <= m -> 0 <= round_nearest_even m l.
Proof.
  intros H. destruct l as [ | [ | | ]]; cbn; try lia.
  destruct (Z.even m); lia.
Qed.

(** Rounding a mantissa that is not negative never gives NaN. *)
Lemma binary_round_aux_not_nan (s : bool) (m e : Z) (l : location) :
  0 <= m -> binary_round_aux prec emax s m e l <> S754_nan.
Proof.
  intros H. unfold binary_round_aux.
  pose proof (shr_fexp_nonneg m e l H) as H1.
  destruct (shr_fexp prec emax m e l) as [mrs' e']. cbn [fst] in H1.
  pose proof (shr_fexp_nonneg
                (round_nearest_even (shr_m mrs') (loc_of_shr_record mrs')) e'
                loc_Exact (round_nearest_even_nonneg _ _ H1)) as H2.
  destruct (shr_fexp prec emax _ e' loc_Exact) as [mrs'' e'']. cbn [fst] in H2.
  destruct (shr_m mrs'') as [ | p | p]; [discriminate | | lia].
  destruct (e'' <=? emax - prec); discriminate.
Qed.

Lemma binary_normalize_not_nan (m e : Z) (s : bool) :
  binary_normalize prec emax m e s <> S754_nan.
Proof.
  unfold binary_normalize, binary_round.
  destruct m as [ | p | p]; [discriminate | | ];
    destruct (shl_align _ _ _) as [mz ez]; apply binary_round_aux_not_nan; lia.
Qed.

Lemma SFeqb_refl (x : spec_float) : x <> S754_nan -> SFeqb x x = true.
Proof.
  unfold SFeqb, SFcompare.
  destruct x as [s | s | | s m e]; try (destruct s; reflexivity).
  - intros H. now contradiction H.
  - intros _. rewrite Z.compare_refl.
    change (Pos.compare_cont Eq m m) with (Pos.compare m m).
    rewrite Pos.compare_refl. now destruct s.
Qed.

Lemma is_nan_false (x : float) : Prim2SF x <> S754_nan -> is_nan x = false.
Proof.
  intros H. unfold is_nan. rewrite eqb_spec, SFeqb_refl by exact H. reflexivity.
Qed.

Lemma SF2Prim_not_nan (x : spec_float) : x <> S754_nan -> is_nan (SF2Prim x) = false.
Proof.
  intros H. apply is_nan_false.
  destruct x as [[|] | [|] | | s m e]; try discriminate; [now contradiction H | ].
  unfold SF2Prim.
  assert (Hl : Prim2SF (Z.ldexp (of_uint63 (Uint63.of_Z (Z.pos m))) e) <> S754_nan).
  { rewrite FloatLemmas.Z_ldexp_spec, of_uint63_spec.
    pose proof (binary_normalize_not_nan (Uint63.to_Z (Uint63.of_Z (Z.pos m))) 0 false) as Hn.
    destruct (binary_normalize prec emax _ 0 false) as [s0 | s0 | | s0 m0 e0];
      try discriminate; [now contradiction Hn | ].
    unfold SFldexp, binary_round.
    destruct (shl_align _ _ _) as [mz ez]. apply binary_round_aux_not_nan. lia. }
  destruct s; [ | exact Hl].
  rewrite opp_spec.
  destruct (Prim2SF (Z.ldexp _ e)); try discriminate. now contradiction Hl.
Qed.
End NotNaN.

Lemma float_of_decimal_not_nan (m e : Z) :
  (0 <= m)%Z -> is_nan (float_of_decimal m e) = false.
Proof.
  intros Hm. unfold float_of_decimal.
  destruct m as [ | p | p]; [reflexivity | | lia].
  destruct (0 <=? e)%Z eqn:He.
  - apply SF2Prim_not_nan, binary_normalize_not_nan.
  - apply Z.leb_gt in He. unfold SFdiv_core_binary.
    set (m' := match _ with Z.pos _ => _ | 0%Z => _ | Z.neg _ => _ end).
    assert (Hm' : (0 <= m')%Z).
    { subst m'. destruct (_ - _)%Z; try lia.
      rewrite Z.shiftl_mul_pow2 by lia. apply Z.mul_nonneg_nonneg; [lia | ].
      apply Z.pow_nonneg. lia. }
    assert (Hpow : (0 < 10 ^ (- e))%Z) by (apply Z.pow_pos_nonneg; lia).
    pose proof (Z.div_pos m' (10 ^ (- e)) Hm' Hpow) as Hq.
    unfold Z.div in Hq.
    destruct (Z.div_eucl m' (10 ^ (- e))) as [q r]. cbn [fst] in Hq.
    apply SF2Prim_not_nan, binary_round_aux_not_nan. exact Hq.
Qed.

(** ** Reading the amount kept *)

Lemma numeric_not_white (c : ascii) : numeric_char c = true -> is_white c = false.
Proof.
  destruct c as [[] [] [] [] [] [] [] []]; cbn; intros H;
    (reflexivity || discriminate H).
Qed.

Lemma numeric_no_sign (c : ascii) (r : list ascii) :
  numeric_char c = true -> scan_sign (c :: r) = (false, c :: r).
Proof.
  destruct c as [[] [] [] [] [] [] [] []]; cbn; intros H;
    (reflexivity || discriminate H).
Qed.

Lemma numeric_not_infinity (c : ascii) (r : list ascii) :
  numeric_char c = true ->
  strip_prefix (list_ascii_of_string "Infinity") (c :: r) = None.
Proof.
  destruct c as [[] [] [] [] [] [] [] []]; cbn; intros H;
    (reflexivity || discriminate H).
Qed.

Lemma digit_val_digit (c : ascii) :
  is_digit c = true -> exists d, digit_val 10 c = Some d /\ (0 <= d)%Z.
Proof.
  destruct c as [[] [] [] [] [] [] [] []]; cbn; intros H; try discriminate H;
    (eexists; split; [reflexivity | lia]).
Qed.

Lemma skip_white_numeric (l : list ascii) :
  forallb numeric_char l = true -> skip_white l = l.
Proof.
  destruct l as [ | c l]; cbn; [reflexivity | ].
  intros H. apply andb_true_iff in H. destruct H as (Hc & _).
  now rewrite (numeric_not_white c Hc).
Qed.

Lemma forallb_rev {A : Type} (f : A -> bool) (l : list A) :
  forallb f l = true -> forallb f (rev l) = true.
Proof.
  rewrite !forallb_forall. intros H x Hx. apply H. now apply in_rev.
Qed.

Lemma trim_numeric (l : list ascii) :
  forallb numeric_char l = true -> trim l = l.
Proof.
  intros H. unfold trim.
  rewrite (skip_white_numeric l H).
  rewrite (skip_white_numeric (rev l) (forallb_rev _ _ H)).
  apply rev_involutive.
Qed.

(** A run of digits, then the end or a point: the run is read whole. *)
Lemma scan_digits_run (ds rest : list ascii) :
  forallb is_digit ds = true ->
  rest = [] \/ (exists x, rest = "."%char :: x) ->
  forall acc n, (0 <= acc)%Z ->
  exists m, (0 <= m)%Z /\
            scan_digits 10 (ds ++ rest) acc n
            = (m, (n + Z.of_nat (List.length ds))%Z, rest).
Proof.
  intros Hds Hrest. induction ds as [ | c ds IH]; intros acc n Hacc.
  - exists acc. split; [exact Hacc | ]. cbn [app List.length Z.of_nat].
    rewrite Z.add_0_r. destruct Hrest as [-> | (x & ->)]; reflexivity.
  - cbn [forallb] in Hds. apply andb_true_iff in Hds. destruct Hds as (Hc & Hds).
    destruct (digit_val_digit c Hc) as (d & Hd & Hd0).
    cbn [app scan_digits]. rewrite Hd.
    destruct (IH Hds (10 * acc + d)%Z (n + 1)%Z ltac:(lia)) as (m & Hm & ->).
    exists m. split; [exact Hm | ]. f_equal. f_equal.
    cbn [List.length]. lia.
Qed.

(** An amount kept, other than the empty text and the lone point, reads as a
    decimal numeral, whole. *)
Lemma scan_plain_amount (l : list ascii) :
  (forallb is_digit l = true /\ l <> []) \/
  (exists a d, l = (a ++ "."%char :: d)%list /\
               forallb is_digit a = true /\ forallb is_digit d = true /\
               l <> ["."%char]) ->
  exists m e, (0 <= m)%Z /\ scan_unsigned_decimal l = Some (NDecimal m e, []).
Proof.
  intros [(Hd & Hne) | (a & d & -> & Ha & Hd & Hne)].
  - destruct l as [ | c l]; [now contradiction Hne | ].
    unfold scan_unsigned_decimal.
    assert (Hc : numeric_char c = true).
    { cbn in Hd. apply andb_true_iff in Hd. unfold numeric_char. now destruct Hd as (-> & _). }
    rewrite (numeric_not_infinity c l Hc).
    destruct (scan_digits_run (c :: l) [] Hd (or_introl eq_refl) 0%Z 0%Z ltac:(lia))
      as (m & Hm & Hscan).
    rewrite app_nil_r in Hscan. rewrite Hscan.
    cbn [List.length Z.of_nat].
    assert (Hn : (0 + Z.pos (Pos.of_succ_nat (List.length l)) =? 0)%Z = false)
      by (apply Z.eqb_neq; lia).
    rewrite Hn. cbn [scan_exponent]. eauto.
  - unfold scan_unsigned_decimal.
    assert (Hinf : strip_prefix (list_ascii_of_string "Infinity") (a ++ "."%char :: d)
                   = None).
    { destruct a as [ | c a]; [reflexivity | ].
      apply numeric_not_infinity. cbn in Ha. apply andb_true_iff in Ha.
      unfold numeric_char. now destruct Ha as (-> & _). }
    rewrite Hinf.
    destruct (scan_digits_run a ("."%char :: d) Ha (or_intror (ex_intro _ d eq_refl))
                0%Z 0%Z ltac:(lia)) as (ip & Hip & ->).
    destruct (scan_digits_run d [] Hd (or_introl eq_refl) ip 0%Z Hip)
      as (m & Hm & Hscan).
    rewrite app_nil_r in Hscan. rewrite Hscan.
    assert (Hn : ((0 + Z.of_nat (List.length a) =? 0)
                  && (0 + Z.of_nat (List.length d) =? 0))%Z = false).
    { destruct a as [ | c a]; [ | cbn [List.length]; apply andb_false_iff; left;
                                  apply Z.eqb_neq; lia].
      destruct d as [ | c d]; [now contradiction Hne | ].
      cbn [List.length]. apply andb_false_iff; right. apply Z.eqb_neq; lia. }
    rewrite Hn. cbn [scan_exponent]. eauto.
Qed.

Lemma plain_amount_number (l : list ascii) :
  (forallb is_digit l = true /\ l <> []) \/
  (exists a d, l = (a ++ "."%char :: d)%list /\
               forallb is_digit a = true /\ forallb is_digit d = true /\
               l <> ["."%char]) ->
  exists x, string_to_number (string_of_list_ascii l) = x /\
            parse_float_text (string_of_list_ascii l) = x /\
            is_nan x = false.
Proof.
  intros H.
  assert (Hnum : forallb numeric_char l = true).
  { destruct H as [(Hd & _) | (a & d & -> & Ha & Hd & _)];
      [now apply digits_numeric | now apply forallb_numeric_app_point]. }
  assert (Hne : l <> []).
  { destruct H as [(_ & Hne) | (a & d & -> & _)]; [exact Hne | ].
    now destruct a. }
  destruct (scan_plain_amount l H) as (m & e & Hm & Hscan).
  exists (float_of_decimal m e).
  unfold string_to_number, parse_float_text.
  rewrite list_ascii_of_string_of_list_ascii.
  rewrite (trim_numeric l Hnum), (skip_white_numeric l Hnum).
  destruct l as [ | c l]; [now contradiction Hne | ].
  assert (Hc : numeric_char c = true)
    by (cbn in Hnum; apply andb_true_iff in Hnum; now destruct Hnum).
  rewrite (numeric_no_sign c l Hc), Hscan. cbn [float_of_numeral].
  repeat split. now apply float_of_decimal_not_nan.
Qed.

Lemma amount_kept_cases (text : string) :
  fst (handleAmountChange text) = EmptyString \/
  fst (handleAmountChange text) = "." \/
  fst (handleAmountChange text) <> EmptyString /\
  exists x,
    string_to_number (fst (handleAmountChange text)) = x /\
    parse_float_text (fst (handleAmountChange text)) = x /\
    is_nan x = false.
Proof.
  rewrite handleAmountChange_render. cbn [fst].
  set (l := fst (render (strip_non_numeric (list_ascii_of_string text)))).
  assert (Hcases : l = [] \/ l = ["."%char] \/
                   (forallb is_digit l = true /\ l <> []) \/
                   (exists a d, l = (a ++ "."%char :: d)%list /\
                                forallb is_digit a = true /\ forallb is_digit d = true /\
                                l <> ["."%char])).
  { subst l.
    destruct (render_cases _ (strip_non_numeric_numeric (list_ascii_of_string text)))
      as [(Hd & ->) | (a & d & Ha & Hd & ->)]; cbn [fst].
    - destruct (strip_non_numeric (list_ascii_of_string text)) as [ | c l'] eqn:Hl;
        [now left | ].
      right; right; left. split; [exact Hd | discriminate].
    - destruct a as [ | c a]; [destruct d as [ | c d]; [right; left; reflexivity | ] | ];
        (right; right; right; eexists _, _;
         split; [reflexivity | split; [eassumption | split; [eassumption | ]]]).
      + cbn. intros H. discriminate H.
      + cbn. intros H. injection H as _ H. destruct a; discriminate H. }
  destruct Hcases as [-> | [-> | Hplain]]; [now left | right; now left | ].
  right; right. split; [ | exact (plain_amount_number l Hplain)].
  destruct Hplain as [(_ & Hl) | (a & d & -> & _)].
  - destruct l; [now contradiction Hl | discriminate].
  - destruct a; discriminate.
Qed.

(** X17. Whatever the text typed, the amount kept is empty, or the lone
    point, or a number: [isNaN] is false of it, and [Number] and [parseFloat]
    read the same number from it. *)
Theorem handleAmountChange_keeps_a_number (text : string) :
  fst (handleAmountChange text) = EmptyString \/
  fst (handleAmountChange text) = "." \/
  exists x,
    to_number (VStr (fst (handleAmountChange text))) = Normal x /\
    parseFloat (VStr (fst (handleAmountChange text))) = Normal x /\
    isNaN (VStr (fst (handleAmountChange text))) = Normal false.
Proof.
  destruct (amount_kept_cases text) as [H | [H | (_ & x & Hn & Hp & Hx)]];
    [now left | right; now left | ].
  right; right. exists x. cbn [to_number parseFloat]. unfold isNaN.
  cbn [to_number cbind]. rewrite Hn, Hp, Hx. repeat split.
Qed.

(** ** More of [convert] *)

Lemma get_primitive (rates : value) (k : string) :
  primitive_rates rates -> to_boolean rates = true ->
  exists v, get rates k = Normal v /\ primitive v = true.
Proof.
  destruct rates as [ | | b | x | s | o]; cbn; intros Hp Ht;
    try discriminate Ht; try (eexists; split; reflexivity).
  - destruct (String.eqb k "length"); [eexists; split; reflexivity | ].
    destruct (canonical_index k) as [i | ]; [ | eexists; split; reflexivity].
    destruct (String.get i s); eexists; split; reflexivity.
  - destruct (own o k) as [v | ] eqn:Hk.
    + exists v. split; [reflexivity | exact (own_primitive o k v Hp Hk)].
    + eexists; split; reflexivity.
Qed.

Lemma convert_on_primitives (amount : value) (a b : string) (rates : value) :
  primitive amount = true -> primitive_rates rates ->
  exists y, convert amount a b rates = Normal (VNum y).
Proof.
  intros Ha Hr. unfold convert.
  destruct (to_boolean rates) eqn:Ht; cbn [negb]; [ | eauto].
  destruct (to_number_primitive amount Ha) as (x & Hx).
  unfold isNaN. rewrite Hx. cbn [cbind].
  destruct (is_nan x || is_empty_string amount)%bool; [eauto | ].
  assert (Hp : exists p, parseFloat amount = Normal p)
    by (destruct amount; cbn; eauto; discriminate Ha).
  destruct Hp as (p & ->). cbn [cbind].
  destruct (get_primitive rates a Hr Ht) as (va & -> & Hva).
  destruct (get_primitive rates b Hr Ht) as (vb & -> & Hvb).
  destruct (to_number_primitive va Hva) as (ra & Hra).
  destruct (to_number_primitive vb Hvb) as (rb & Hrb).
  unfold js_div, js_mul. cbn [cbind to_number]. rewrite Hra. cbn [cbind to_number].
  rewrite Hrb. cbn [cbind]. eauto.
Qed.

(** X18. [convert] never throws and always returns a number when the amount
    is a primitive value and the members of [rates], if it is an object, are
    primitive values: whatever the currency codes, known or not. *)
Theorem convert_returns_a_number (amount : value) (a b : string) (rates : value) :
  primitive amount = true -> primitive_rates rates ->
  exists y, convert amount a b rates = Normal (VNum y).
Proof. exact (convert_on_primitives amount a b rates). Qed.

(** X19. Through the base currency there is one operation only: from a
    currency whose rate is exactly 1, [convert] multiplies the amount by the
    rate of the target; to it, [convert] divides the amount by the rate of
    the source. *)
Theorem convert_through_base (x rb : float) (a b : string) (o : list (string * value)) :
  is_nan x = false ->
  own o a = Some (VNum 1) ->
  own o b = Some (VNum rb) ->
  convert (VNum x) a b (VObj o) = Normal (VNum ((if is_zero x then 0 else x) * rb)) /\
  convert (VNum x) b a (VObj o) = Normal (VNum ((if is_zero x then 0 else x) / rb)).
Proof.
  intros Hx Ha Hb. split.
  - rewrite (convert_numbers x 1 rb a b o Hx Ha Hb). now rewrite div_one.
  - rewrite (convert_numbers x rb 1 b a o Hx Hb Ha). now rewrite mul_one.
Qed.

Lemma is_zero_spec (z : float) :
  is_zero z = true -> exists s, Prim2SF z = S754_zero s.
Proof.
  unfold is_zero. rewrite eqb_spec. change (Prim2SF zero) with (S754_zero false).
  destruct (Prim2SF z) as [s | [|] | | [|] m e]; cbn; intros H;
    try discriminate H. now exists s.
Qed.

Lemma not_finite_spec (y : float) :
  Prim2SF y = S754_nan \/ (exists s, Prim2SF y = S754_infinity s) ->
  not_finite y = true.
Proof.
  unfold not_finite, is_nan, is_infinity.
  rewrite !eqb_spec, abs_spec. change (Prim2SF infinity) with (S754_infinity false).
  intros [-> | (s & ->)]; [reflexivity | ]. destruct s; reflexivity.
Qed.

Lemma div_by_zero (x z : float) :
  is_zero z = true ->
  Prim2SF (x / z) = S754_nan \/ exists s, Prim2SF (x / z) = S754_infinity s.
Proof.
  intros Hz. destruct (is_zero_spec z Hz) as (s & Hs).
  rewrite div_spec, Hs. unfold SF64div, SFdiv.
  destruct (Prim2SF x); eauto.
Qed.

Lemma mul_not_finite (q r : float) :
  Prim2SF q = S754_nan \/ (exists s, Prim2SF q = S754_infinity s) ->
  Prim2SF (q * r) = S754_nan \/ exists s, Prim2SF (q * r) = S754_infinity s.
Proof.
  intros Hq. rewrite mul_spec. unfold SF64mul, SFmul.
  destruct Hq as [-> | (s & ->)]; [now left | ].
  destruct (Prim2SF r); eauto.
Qed.

(** X20. [convert] does not guard against a rate of zero: when the rate of
    the source currency is 0, the result is NaN or an infinity, never a
    finite amount, and nothing is thrown. *)
Theorem convert_with_zero_rate (x ra rb : float) (a b : string)
    (o : list (string * value)) :
  is_nan x = false ->
  own o a = Some (VNum ra) ->
  own o b = Some (VNum rb) ->
  is_zero ra = true ->
  exists y, convert (VNum x) a b (VObj o) = Normal (VNum y) /\ not_finite y = true.
Proof.
  intros Hx Ha Hb Hz.
  rewrite (convert_numbers x ra rb a b o Hx Ha Hb).
  eexists. split; [reflexivity | ].
  apply not_finite_spec, mul_not_finite, div_by_zero, Hz.
Qed.

(** ** Amounts that are not numbers *)

Import Amounts.


(** *** White space *)






(** *** Text that begins badly *)



(** *** Text with a character no numeral has *)
















(** *** What [convert] makes of them *)




(** ** The screens at work *)

Lemma not_nan_spec (p : float) : is_nan p = false -> Prim2SF p <> S754_nan.
Proof.
  unfold is_nan. rewrite eqb_spec. intros H Hn. rewrite Hn in H. discriminate H.
Qed.

Lemma positive_when_not_below (p : float) :
  (p <=? 0)%float = false -> is_nan p = false -> (0 <? p)%float = true.
Proof.
  intros Hle Hn. apply not_nan_spec in Hn.
  rewrite leb_spec in Hle. rewrite ltb_spec.
  change (Prim2SF 0) with (S754_zero false) in *.
  destruct (Prim2SF p) as [s | [|] | | [|] m e]; cbn in *;
    try reflexivity; try discriminate Hle. now contradiction Hn.
Qed.

Lemma REAL_column_not_nan (x : float) :
  is_nan x = false -> is_nan (REAL_column x) = false.
Proof.
  intros Hx. unfold REAL_column. now destruct (is_zero x).
Qed.

Lemma REAL_column_positive (p : float) :
  (p <=? 0)%float = false -> REAL_column p = p.
Proof.
  intros Hle. unfold REAL_column.
  destruct (is_zero p) eqn:Hz; [ | reflexivity].
  destruct (is_zero_spec p Hz) as (sg & Hp).
  rewrite leb_spec, Hp in Hle. destruct sg; discriminate Hle.
Qed.

Lemma convert_one_number (a b : string) (rates : value) :
  primitive_rates rates -> exists y, convert (VNum 1) a b rates = Normal (VNum y).
Proof. intros Hr. now apply convert_on_primitives. Qed.

(** X21. The history only ever receives valid conversions.  Whatever the
    amount field holds and whatever the currencies, the effect that saves
    conversions never throws, leaves the rate cache alone, and either writes
    nothing or adds one row: the pair of currencies of the screen, the amount
    read from the field, which is greater than 0, and a result and a rate
    that are numbers (not NaN). *)
Theorem autoSave_records_valid_conversions (s : screen) (w : world) :
  primitive_rates (s_rates s) ->
  fst (autoSave s w) = Normal tt /\
  rates_cache (db (snd (autoSave s w))) = rates_cache (db w) /\
  (conversion_history (db (snd (autoSave s w))) = conversion_history (db w) \/
   exists row,
     conversion_history (db (snd (autoSave s w)))
     = (conversion_history (db w) ++ [row])%list /\
     h_from_currency row = s_fromCurrency s /\
     h_to_currency row = s_toCurrency s /\
     h_amount row = parse_float_text (s_amount s) /\
     (0 <? h_amount row)%float = true /\
     is_nan (h_result row) = false /\
     is_nan (h_rate row) = false).
Proof.
  intros Hr.
  remember (autoSave s w) as g eqn:Hg.
  unfold autoSave, bind at 1, lift, nothing_to_record in Hg.
  destruct (to_boolean (s_rates s)); cbn [negb] in Hg;
    [ | subst g; cbn; repeat split; now left].
  destruct (to_boolean (VStr (s_amount s))); cbn [negb] in Hg;
    [ | subst g; cbn; repeat split; now left].
  unfold isNaN in Hg. cbn [to_number cbind parseFloat] in Hg.
  destruct (is_nan (string_to_number (s_amount s)));
    [subst g; cbn; repeat split; now left | ].
  destruct (parse_float_text (s_amount s) <=? 0)%float eqn:Hle;
    [subst g; cbn; repeat split; now left | ].
  unfold recordConversion, bind, lift in Hg. cbn [parseFloat] in Hg.
  destruct (convert_on_primitives (VNum (parse_float_text (s_amount s)))
              (s_fromCurrency s) (s_toCurrency s) (s_rates s) eq_refl Hr) as (y & Hy).
  destruct (convert_one_number (s_fromCurrency s) (s_toCurrency s) (s_rates s) Hr)
    as (k & Hk).
  rewrite Hy, Hk in Hg. cbn [number_of] in Hg.
  rewrite saveToHistory_run in Hg.
  destruct (disk_fails w (statements w)
            || (is_nan (parse_float_text (s_amount s)) || is_nan y || is_nan k))%bool
    eqn:Hbad; subst g; cbn [fst snd]; world_simpl.
  - repeat split. now left.
  - repeat split. right. eexists. split; [reflexivity | ].
    apply orb_false_iff in Hbad. destruct Hbad as (_ & Hbad).
    apply orb_false_iff in Hbad. destruct Hbad as (Hbad & Hk').
    apply orb_false_iff in Hbad. destruct Hbad as (Hp & Hy').
    cbn. rewrite (REAL_column_positive _ Hle).
    repeat split; try (now apply REAL_column_not_nan).
    now apply positive_when_not_below.
Qed.

(** The timer armed runs the same recording. *)
Lemma scheduleHistorySave_autoSave (s : screen) (w : world) :
  match scheduleHistorySave (s_fromCurrency s) (s_toCurrency s)
          (VStr (s_amount s)) (s_rates s) with
  | Normal (Some job) => autoSave s w = job w
  | Normal None => autoSave s w = (Normal tt, w)
  | Throw e => autoSave s w = (Throw e, w)
  end.
Proof.
  unfold scheduleHistorySave, autoSave, bind, lift.
  destruct (nothing_to_record (s_rates s) (VStr (s_amount s))) as [[|] | e];
    reflexivity.
Qed.

(** X22. [loadRates] never rejects and always lets go of the busy flags,
    whatever [getRates] does.  When [getRates] resolves, the screen takes its
    rates, its source and its age, and a refresh announces an update for live
    rates only; when [getRates] rejects, the screen keeps the rates it had and
    says that they could not be loaded.  What the user typed and chose is
    never touched, and the world is left as [getRates] leaves it. *)
Theorem loadRates_settles (isRefresh : bool) (s : screen) (w : world) :
  exists s',
    loadRates isRefresh s w = (Normal s', snd (getRates w)) /\
    s_loading s' = false /\ s_refreshing s' = false /\
    s_amount s' = s_amount s /\ s_displayAmount s' = s_displayAmount s /\
    s_fromCurrency s' = s_fromCurrency s /\ s_toCurrency s' = s_toCurrency s /\
    s_rounded s' = s_rounded s /\
    match fst (getRates w) with
    | Normal r =>
        s_rates s' = rates r /\
        s_ratesMeta s' = (Some (source r), ageMinutes r) /\
        s_snackbar s' = (if isRefresh
                         then match source r with
                              | live => MSG_UPDATED
                              | _ => MSG_CACHED
                              end
                         else s_snackbar s)
    | Throw _ =>
        s_rates s' = s_rates s /\
        s_ratesMeta s' = s_ratesMeta s /\
        s_snackbar s' = MSG_FAILED
    end.
Proof.
  unfold loadRates, bind, try_catch, ret.
  destruct (getRates w) as [[r | e] w1]; cbn [fst snd];
    eexists; (split; [reflexivity | ]); destruct isRefresh; cbn;
    repeat split; reflexivity.
Qed.

Lemma loadRates_run (isRefresh : bool) (s : screen) (w : world) :
  exists s', loadRates isRefresh s w = (Normal s', snd (getRates w)) /\
    match fst (getRates w) with
    | Normal r => s_rates s' = rates r
    | Throw _ => s_rates s' = s_rates s /\ s_snackbar s' = MSG_FAILED
    end.
Proof.
  unfold loadRates, bind, try_catch, ret.
  destruct (getRates w) as [[r | e] w1]; cbn [fst snd];
    eexists; (split; [reflexivity | ]); destruct isRefresh; cbn;
    repeat split; reflexivity.
Qed.

(** X23. When the database cannot be read, the first load leaves the screen
    without rates: they stay [null], the provider is not asked, and the
    message says that the rates could not be loaded; with no rates, the
    result shown is [null] and no timer is armed for the history, whatever
    is typed. *)
Theorem loadRates_without_database (text : string) (w : world) :
  disk_fails w (statements w) = true ->
  exists s',
    fst (loadRates false initial_screen w) = Normal s' /\
    requests (snd (loadRates false initial_screen w)) = requests w /\
    s_rates s' = VNull /\ s_snackbar s' = MSG_FAILED /\
    computed_result (typed text s') = Normal None /\
    scheduleHistorySave (s_fromCurrency s') (s_toCurrency s')
      (VStr (s_amount (typed text s'))) (s_rates s') = Normal None.
Proof.
  intros Hd.
  destruct (loadRates_run false initial_screen w) as (s' & Hrun & Hs').
  destruct (getRates_outcome w) as (_ & [H | [H | [H | H]]]);
    destruct H as (Hd' & H); try congruence.
  destruct H as (Hthrow & _ & Hw).
  rewrite Hthrow in Hs'. destruct Hs' as (Hr & Hm).
  exists s'. rewrite Hrun. cbn [fst snd]. rewrite Hw.
  repeat split; try assumption.
  - unfold computed_result, typed. cbn [s_rates]. now rewrite Hr.
  - unfold scheduleHistorySave, nothing_to_record. now rewrite Hr.
Qed.



(** ** The provider and the history, once more *)

(** X26. Every way [fetchLiveRates] can end.  It sends one request to the
    provider's address and leaves the database alone.  When it resolves, its
    value is an object of exactly the four currencies, in the order USD, EUR,
    CNY, MGA; when it rejects, the reason is the network, a status that is not
    a success, a body that is not JSON, or a document without rates. *)
Theorem fetchLiveRates_outcomes (w : world) :
  requests (snd (fetchLiveRates w)) = (requests w ++ [RATES_URL])%list /\
  db (snd (fetchLiveRates w)) = db w /\
  match fst (fetchLiveRates w) with
  | Normal r =>
      exists usd eur cny mga,
        r = VObj [("USD", usd); ("EUR", eur); ("CNY", cny); ("MGA", mga)]
  | Throw e =>
      e = FetchRejected \/ e = SyntaxError \/ e = TypeError \/
      exists status, e = HttpError status /\ response_ok status = false
  end.
Proof.
  split; [now rewrite fetchLiveRates_run | ].
  split; [now rewrite fetchLiveRates_run | ].
  destruct (fst (fetchLiveRates w)) as [r | e] eqn:Hf.
  - rewrite fetchLiveRates_run in Hf. cbn [fst] in Hf. unfold live_rates in Hf.
    destruct (provider w (List.length (requests w))) as [ | status b];
      [discriminate Hf | ].
    destruct (response_ok status); [ | discriminate Hf].
    destruct b as [ | data]; [discriminate Hf | ].
    destruct (get data "rates") as [r0 | ]; cbn [cbind] in Hf; [ | discriminate Hf].
    destruct (get r0 "USD") as [usd | ]; cbn [cbind] in Hf; [ | discriminate Hf].
    destruct (get r0 "EUR") as [eur | ]; cbn [cbind] in Hf; [ | discriminate Hf].
    destruct (get r0 "CNY") as [cny | ]; cbn [cbind] in Hf; [ | discriminate Hf].
    destruct (get r0 "MGA") as [mga | ]; cbn [cbind] in Hf; [ | discriminate Hf].
    injection Hf as <-. now exists usd, eur, cny, mga.
  - pose proof (fetchLiveRates_failures w e Hf) as H.
    destruct (provider w (List.length (requests w))) as [ | status b];
      [now left | ].
    destruct (response_ok status) eqn:Hok.
    + destruct b as [ | data]; [right; now left | ].
      right; right; left. apply H.
    + right; right; right. now exists status.
Qed.

(** X27. A history that cannot be read looks empty: when the statement
    fails, or the limit is not one SQLite takes (an integer outside its
    64-bit integers), [getHistory] returns the empty sequence and logs
    nothing.  Otherwise it returns as many rows as the limit allows: all of
    them under a negative limit, the limit or the whole history otherwise. *)
Theorem getHistory_count (w : world) (limit : Z) :
  exists rows,
    fst (getHistory limit w) = Normal rows /\
    console (snd (getHistory limit w)) = console w /\
    if (disk_fails w (statements w) || negb (is_limit limit))%bool then rows = []
    else List.length rows
         = if (limit <? 0)%Z then List.length (conversion_history (db w))
           else Nat.min (Z.to_nat limit) (List.length (conversion_history (db w))).
Proof.
  unfold getHistory, try_catch, statement, select_history.
  destruct (disk_fails w (statements w)); cbn.
  { exists []. repeat split. }
  destruct (is_limit limit); cbn.
  - eexists. split; [reflexivity | ]. split; [reflexivity | ].
    destruct (limit <? 0)%Z.
    + apply (order_desc_spec (conversion_history (db w))).
    + rewrite length_firstn. f_equal. apply (order_desc_spec (conversion_history (db w))).
  - exists []. repeat split.
Qed.

(** ** The properties at work *)

Import Session.

(** An empty store and no network: the built-in table is the answer. *)
Lemma getRates_always_resolves_witness :
  exists r, fst (getRates (scene [] offline healthy)) = Normal r.
Proof.
  exact (getRates_always_resolves (scene [] offline healthy) eq_refl).
Defined.

(** A disk that fails every statement. *)
Lemma getRates_rejects_when_read_fails_witness :
  fst (getRates (scene [old_snapshot 30] online broken)) = Throw SQLiteError /\
  requests (snd (getRates (scene [old_snapshot 30] online broken))) = [] /\
  db (snd (getRates (scene [old_snapshot 30] online broken)))
  = db (scene [old_snapshot 30] online broken).
Proof.
  exact (getRates_rejects_when_read_fails (scene [old_snapshot 30] online broken)
           eq_refl).
Defined.

(** A stale snapshot and a provider that answers: the answer is [live] and
    the store holds it. *)
Lemma getRates_provenance_witness :
  exists row,
    snapshot (db (snd (getRates (scene [old_snapshot 90] online healthy)))) = Some row /\
    rc_rates row = json_image provider_rates /\
    rc_base row = "USD".
Proof.
  exact (getRates_provenance (scene [old_snapshot 90] online healthy)
           {| rates := provider_rates; source := live;
              fetchedAt := Some (call_time + 2)%Z; ageMinutes := Some 0%Z |}
           eq_refl).
Defined.

(** One stale snapshot before, one snapshot after. *)
Lemma getRates_keeps_single_snapshot_witness :
  single_snapshot (db (snd (getRates (scene [old_snapshot 90] online healthy)))).
Proof.
  apply (getRates_keeps_single_snapshot (scene [old_snapshot 90] online healthy)).
  right. exists (old_snapshot 90). split; reflexivity.
Defined.

(** The provider's rates saved, then loaded a millisecond later. *)
Lemma saveRatesToCache_then_load_witness :
  fst (loadRatesFromCache
         (snd (saveRatesToCache provider_rates (scene [] online healthy))))
  = Normal (Some {| c_rates := provider_rates; isFresh := true;
                    c_fetchedAt := call_time; c_ageMinutes := 0%Z |}).
Proof.
  refine (saveRatesToCache_then_load (scene [] online healthy) provider_rates
            _ eq_refl eq_refl).
  discriminate.
Defined.

(** Two calls in a row, the store empty at first. *)
Lemma getRates_twice_witness :
  fst (getRates (snd (getRates (scene [] online healthy))))
  = Normal {| rates := provider_rates; source := cache;
              fetchedAt := Some call_time; ageMinutes := Some 0%Z |} /\
  requests (snd (getRates (snd (getRates (scene [] online healthy)))))
  = [RATES_URL].
Proof.
  destruct (getRates_twice (scene [] online healthy)
              {| rates := provider_rates; source := live;
                 fetchedAt := Some (call_time + 1)%Z; ageMinutes := Some 0%Z |}
              eq_refl eq_refl eq_refl eq_refl) as (Hres & Hreq & _).
  split; [exact Hres | exact Hreq].
Defined.

(** A second conversion, a minute after the first. *)
Lemma saveToHistory_then_getHistory_witness :
  fst (getHistory 1 (snd (saveToHistory "CNY" "MGA" 1500 916666.6666666666 611.1111111111111 used)))
  = Normal [{| h_id := 2; h_from_currency := "CNY"; h_to_currency := "MGA";
               h_amount := 1500; h_result := 916666.6666666666;
               h_rate := 611.1111111111111;
               h_converted_at := (call_time / 1000)%Z |}].
Proof.
  refine (saveToHistory_then_getHistory used "CNY" "MGA" 1500 916666.6666666666
            611.1111111111111 eq_refl eq_refl eq_refl _).
  intros x [<- | []]. reflexivity.
Defined.

(** The history of one row, cleared. *)
Lemma clearHistory_then_getHistory_witness :
  conversion_history (db (snd (clearHistory used))) = [] /\
  rates_cache (db (snd (clearHistory used))) = [old_snapshot 30] /\
  history_seq (db (snd (clearHistory used))) = 1%Z /\
  fst (getHistory 30 (snd (clearHistory used))) = Normal [].
Proof.
  exact (clearHistory_then_getHistory used 30 eq_refl).
Defined.

(** The history of one row, whose id is the last given. *)
Lemma history_ids_stay_sound_witness :
  history_ids_sound (db used) /\
  history_ids_sound (db (snd (saveToHistory "CNY" "MGA" 1500 916666.6666666666 611.1111111111111 used))) /\
  history_ids_sound (db (snd (clearHistory used))) /\
  history_ids_sound (db (snd (getRates used))).
Proof.
  assert (Hsound : history_ids_sound (db used))
    by (split; cbn; repeat split; discriminate).
  destruct (history_ids_stay_sound used "CNY" "MGA" 1500 916666.6666666666
              611.1111111111111 30 Hsound) as ((Hsave & _) & (Hclear & _) & _ & Hrates).
  repeat split; try apply Hsound; try apply Hsave; try apply Hclear; apply Hrates.
Defined.

(** The comment of the source: "1234567.8" is shown as "1,234,567.8". *)
Lemma handleAmountChange_groups_thousands_witness :
  list_ascii_of_string (snd (handleAmountChange "1234567.8"))
  = list_ascii_of_string "1,234,567.8".
Proof.
  refine (handleAmountChange_groups_thousands "1234567.8"
            (list_ascii_of_string "1234567") (list_ascii_of_string ".8")
            eq_refl eq_refl _).
  right. eexists. reflexivity.
Defined.

(** Text as the amount and a currency the table does not know. *)
Lemma convert_returns_a_number_witness :
  exists y, convert (VStr "12.5") "USD" "GBP" provider_rates = Normal (VNum y).
Proof.
  exact (convert_returns_a_number (VStr "12.5") "USD" "GBP" provider_rates
           eq_refl eq_refl).
Defined.

(** 100 dollars in ariary, 100 ariary in dollars. *)
Lemma convert_through_base_witness :
  convert (VNum 100) "USD" "MGA" provider_rates = Normal (VNum 440000) /\
  convert (VNum 100) "MGA" "USD" provider_rates = Normal (VNum (100 / 4400)).
Proof.
  exact (convert_through_base 100 4400 "USD" "MGA"
           [("USD", VNum 1); ("EUR", VNum 0.9); ("CNY", VNum 7.2); ("MGA", VNum 4400)]
           eq_refl eq_refl eq_refl).
Defined.

(** Five units of a currency whose rate is 0. *)
Lemma convert_with_zero_rate_witness :
  exists y, convert (VNum 5) "XXX" "USD" (VObj rates_with_zero) = Normal (VNum y) /\
            not_finite y = true.
Proof.
  exact (convert_with_zero_rate 5 0 1 "XXX" "USD" rates_with_zero
           eq_refl eq_refl eq_refl eq_refl).
Defined.

(** 1500 yuan in ariary, recorded. *)
Lemma autoSave_records_valid_conversions_witness :
  fst (autoSave ready used) = Normal tt /\
  conversion_history (db (snd (autoSave ready used)))
  = [earlier_row;
     {| h_id := 2; h_from_currency := "CNY"; h_to_currency := "MGA";
        h_amount := 1500; h_result := (1500 / 7.2 * 4400)%float;
        h_rate := (1 / 7.2 * 4400)%float;
        h_converted_at := (call_time / 1000)%Z |}].
Proof.
  destruct (autoSave_records_valid_conversions ready used eq_refl) as (Hret & _ & _).
  split; [exact Hret | reflexivity].
Defined.

(** The first load on a disk that fails every statement. *)
Lemma loadRates_without_database_witness :
  exists s',
    fst (loadRates false initial_screen (scene [] online broken)) = Normal s' /\
    requests (snd (loadRates false initial_screen (scene [] online broken))) = [] /\
    s_rates s' = VNull /\ s_snackbar s' = MSG_FAILED /\
    computed_result (typed "12" s') = Normal None.
Proof.
  destruct (loadRates_without_database "12" (scene [] online broken) eq_refl)
    as (s' & Hrun & Hreq & Hrates & Hmsg & Hres & _).
  exists s'. repeat split; assumption.
Defined.




(** An amount that is an object with a member named [toString] is no number
    either; [isNaN] throws on it, and so does [convert]. *)
Example convert_throwing_amount :
  convert (VObj [("toString", VNum 1)]) "USD" "MGA" FALLBACK_RATES_FROM_USD
  = Throw TypeError.
Proof. reflexivity. Qed.

(** A negative zero is kept as zero. *)
Example saveToHistory_negative_zero :
  map (fun r => (h_amount r, h_result r, h_rate r))
    (conversion_history
       (db (snd (saveToHistory "USD" "MGA" 1 neg_zero neg_zero
                   (scene [] online healthy)))))
  = [(1, 0, 0)%float].
Proof. reflexivity. Qed.

(** A limit beyond the 64-bit integers is refused, and the history looks
    empty. *)
Example getHistory_limit_out_of_range :
  fst (getHistory (2 ^ 63) used) = Normal [] /\
  fst (getHistory (- 2 ^ 63) used) = Normal [] /\
  fst (getHistory (-1) used) = Normal [earlier_row].
Proof. repeat split. Qed.
